(** * Knowledge-base chat front-end: store, gateway and controller

    A shallow embedding of the non-presentational logic of

    - [services/geminiService.ts]   (the LLM gateway),
    - [App.tsx]                     (file encoder, knowledge-base store,
                                     conversation controller),
    - [components/KnowledgeBaseManager.tsx] (the sidebar's add handlers),

    followed by the properties of the specification, stated over that
    embedding.

    Conventions.  A JavaScript string is a Rocq [string]; its characters
    are the code units U+0000..U+00FF.  [undefined] is [None].  A function
    that can throw returns an [Outcome].  The hosted service, the clock,
    [FileReader], [JSON.parse] and the [URL] constructor are collaborators
    outside the repository: they are Section variables. *)

From Stdlib Require Import Bool List Arith PeanoNat NArith Lia.
From Stdlib Require Import Ascii String DecimalString.
Import ListNotations.

Local Open Scope string_scope.
Local Open Scope list_scope.

Set Implicit Arguments.

(* ================================================================== *)
(** * Part I.  Definitions                                              *)
(* ================================================================== *)

(** ** JavaScript string primitives *)

Module JsString.

Definition LF : ascii := "010"%char.
Definition CR : ascii := "013"%char.
Definition DQUOTE : ascii := "034"%char.
Definition BACKTICK : ascii := "`"%char.

Definition nl : string := String LF EmptyString.

Definition between (lo hi c : ascii) : bool :=
  ((lo <=? c) && (c <=? hi))%char.

(** WhiteSpace and LineTerminator code units below U+0100: TAB, LF, VT,
    FF, CR, SP and NBSP.  This is the set of [\s] and of [trim]. *)
Definition isWhiteSpace (c : ascii) : bool :=
  between "009" "013" c || (c =? " ")%char || (c =? "160")%char.

(** [\w] *)
Definition isWordChar (c : ascii) : bool :=
  between "a" "z" c || between "A" "Z" c || between "0" "9" c
  || (c =? "_")%char.

(** [.] without the [s] flag: anything but a line terminator. *)
Definition isDot (c : ascii) : bool :=
  negb ((c =? LF)%char || (c =? CR)%char).

(** [.] with the [s] flag. *)
Definition isAny (c : ascii) : bool := true.

(** Upper-case letters with a lower-case partner 32 code units above:
    A-Z, and the Latin-1 letters U+00C0..U+00DE except U+00D7. *)
Definition isUpper (c : ascii) : bool :=
  between "A" "Z" c
  || (between "192" "222" c && negb (c =? "215")%char).

Definition toLowerChar (c : ascii) : ascii :=
  if isUpper c then ascii_of_N (N_of_ascii c + 32) else c.

Fixpoint toLowerCase (s : string) : string :=
  match s with
  | EmptyString => EmptyString
  | String c s' => String (toLowerChar c) (toLowerCase s')
  end.

Fixpoint startsWith (s p : string) {struct p} : bool :=
  match p, s with
  | EmptyString, _ => true
  | String _ _, EmptyString => false
  | String b p', String a s' => (a =? b)%char && startsWith s' p'
  end.

Fixpoint includes (s sub : string) : bool :=
  match s with
  | EmptyString => startsWith s sub
  | String _ s' => startsWith s sub || includes s' sub
  end.

Fixpoint trimStart (s : string) : string :=
  match s with
  | EmptyString => EmptyString
  | String c s' => if isWhiteSpace c then trimStart s' else s
  end.

Fixpoint trimEnd (s : string) : string :=
  match s with
  | EmptyString => EmptyString
  | String c s' =>
      match trimEnd s' with
      | EmptyString => if isWhiteSpace c then EmptyString
                       else String c EmptyString
      | t => String c t
      end
  end.

Definition trim (s : string) : string := trimEnd (trimStart s).

Definition isEmpty (s : string) : bool :=
  match s with EmptyString => true | _ => false end.

(** Every character of [s] is in the class [cls]. *)
Fixpoint allChars (cls : ascii -> bool) (s : string) : bool :=
  match s with
  | EmptyString => true
  | String c s' => cls c && allChars cls s'
  end.

Fixpoint take (n : nat) (s : string) : string :=
  match n, s with
  | S n', String c s' => String c (take n' s')
  | _, _ => EmptyString
  end.

(** [a.join(sep)] *)
Definition join (sep : string) (l : list string) : string :=
  String.concat sep l.

(** [s.split(sep)] for a one-character separator. *)
Fixpoint split (sep : ascii) (s : string) : list string :=
  match s with
  | EmptyString => [EmptyString]
  | String c s' =>
      if (c =? sep)%char then EmptyString :: split sep s'
      else match split sep s' with
           | [] => [String c EmptyString]
           | h :: t => String c h :: t
           end
  end.

(** Template-literal rendering of a number. *)
Definition ofNumber (n : N) : string :=
  NilZero.string_of_uint (N.to_uint n).

(** Truthiness of a possibly-undefined string. *)
Definition truthy (o : option string) : bool :=
  match o with
  | Some s => negb (isEmpty s)
  | None => false
  end.

(** [o || dflt] on strings. *)
Definition orElse (o : option string) (dflt : string) : string :=
  match o with
  | Some s => if isEmpty s then dflt else s
  | None => dflt
  end.

End JsString.

Import JsString.

(** ** A backtracking matcher for the regular expressions of the source

    Only the constructs the three patterns of the source use: a literal
    character, a starred character class (greedy or lazy), an optional
    atom, a capture group, and the two anchors.  Matching is the
    continuation-passing backtracking of ECMAScript: alternatives are
    tried in priority order and the first overall success is kept. *)

Module Regex.

Definition Captures := list (nat * string).

Definition MatchResult := option (string * Captures).

Definition Continuation := string -> Captures -> MatchResult.

Inductive node : Type :=
| Char (c : ascii)
| Star (greedy : bool) (cls : ascii -> bool)
| Opt (n : node)
| Group (i : nat) (n : node)
| AssertStart
| AssertEnd.

Definition setCapture (i : nat) (v : string) (caps : Captures) : Captures :=
  (i, v) :: filter (fun p => negb (fst p =? i)%nat) caps.

Fixpoint capture (i : nat) (caps : Captures) : option string :=
  match caps with
  | [] => None
  | (j, v) :: caps' => if (j =? i)%nat then Some v else capture i caps'
  end.

Fixpoint starGreedy (cls : ascii -> bool) (k : Continuation)
         (s : string) (caps : Captures) : MatchResult :=
  match s with
  | String c s' =>
      if cls c then
        match starGreedy cls k s' caps with
        | Some r => Some r
        | None => k s caps
        end
      else k s caps
  | EmptyString => k s caps
  end.

Fixpoint starLazy (cls : ascii -> bool) (k : Continuation)
         (s : string) (caps : Captures) : MatchResult :=
  match k s caps with
  | Some r => Some r
  | None =>
      match s with
      | String c s' => if cls c then starLazy cls k s' caps else None
      | EmptyString => None
      end
  end.

(** [total] is the length of the whole subject, so that [^] can tell
    whether the current position is the start.  An optional atom that
    matched the empty string is rejected, as RepeatMatcher does. *)
Fixpoint matchNode (total : nat) (n : node) (k : Continuation)
         (s : string) (caps : Captures) : MatchResult :=
  match n with
  | Char c =>
      match s with
      | String c' s' => if (c' =? c)%char then k s' caps else None
      | EmptyString => None
      end
  | Star true cls => starGreedy cls k s caps
  | Star false cls => starLazy cls k s caps
  | Opt n' =>
      match matchNode total n'
              (fun s' caps' =>
                 if (String.length s' =? String.length s)%nat then None
                 else k s' caps') s caps with
      | Some r => Some r
      | None => k s caps
      end
  | Group i n' =>
      matchNode total n'
        (fun s' caps' =>
           k s' (setCapture i
                   (take (String.length s - String.length s') s) caps'))
        s caps
  | AssertStart => if (String.length s =? total)%nat then k s caps else None
  | AssertEnd =>
      match s with
      | EmptyString => k s caps
      | String _ _ => None
      end
  end.

Fixpoint matchSeq (total : nat) (pat : list node) (k : Continuation)
  : Continuation :=
  match pat with
  | [] => k
  | n :: pat' => matchNode total n (matchSeq total pat' k)
  end.

Definition accept : Continuation := fun s caps => Some (s, caps).

Record MatchInfo : Type := mkMatch
  { before : string; after : string; groups : Captures }.

(** Try the pattern at every start position, left to right. *)
Fixpoint scan (total : nat) (pat : list node) (pre s : string)
  : option MatchInfo :=
  match matchSeq total pat accept s [] with
  | Some (rest, caps) => Some (mkMatch pre rest caps)
  | None =>
      match s with
      | String c s' => scan total pat (pre ++ String c EmptyString) s'
      | EmptyString => None
      end
  end.

(** [s.match(re)] for a pattern without the [g] flag. *)
Definition exec (pat : list node) (s : string) : option MatchInfo :=
  scan (String.length s) pat EmptyString s.

(** [s.replace(re, '')] for a pattern without the [g] flag. *)
Definition removeFirst (pat : list node) (s : string) : string :=
  match exec pat s with
  | Some m => before m ++ after m
  | None => s
  end.

Fixpoint literal (s : string) : list node :=
  match s with
  | EmptyString => []
  | String c s' => Char c :: literal s'
  end.

End Regex.

Import Regex.

(** ** Exceptions and results *)

(** A thrown value: an [Error] instance with its message, or anything
    else (a [ProgressEvent], a plain object, ...), which has no message. *)
Inductive Thrown : Type :=
| ErrorObj (message : string)
| NonError.

Inductive Outcome (A : Type) : Type :=
| Return (a : A)
| Throw (e : Thrown).

Arguments Return {A} a.
Arguments Throw {A} e.

Definition bindOutcome {A B : Type} (m : Outcome A) (f : A -> Outcome B)
  : Outcome B :=
  match m with
  | Return a => f a
  | Throw e => Throw e
  end.

(** [e.message], [undefined] on a value that is not an [Error]. *)
Definition messageOf (e : Thrown) : option string :=
  match e with
  | ErrorObj m => Some m
  | NonError => None
  end.

(** ** The request and response types of the service SDK ([@google/genai]) *)

Module Sdk.

Inductive Part : Type :=
| TextPart (text : string)
| InlineDataPart (mimeType : string) (data : option string).

Inductive Tool : Type := UrlContextTool.

Inductive HarmCategory : Type :=
| HARM_CATEGORY_HARASSMENT
| HARM_CATEGORY_HATE_SPEECH
| HARM_CATEGORY_SEXUALLY_EXPLICIT
| HARM_CATEGORY_DANGEROUS_CONTENT.

Inductive HarmBlockThreshold : Type := BLOCK_MEDIUM_AND_ABOVE.

Record SafetySetting : Type := mkSafety
  { category : HarmCategory; threshold : HarmBlockThreshold }.

Record Content : Type := mkContent
  { role : string; parts : list Part }.

Record Config : Type := mkConfig
  { tools : option (list Tool);
    safetySettings : list SafetySetting;
    responseMimeType : option string }.

Record Request : Type := mkRequest
  { model : string; contents : list Content; config : Config }.

(** Modelled from the spec: types.ts, which declares this type, is not
    among the sources; the fields are those of section 3. *)
Record UrlContextMetadataItem : Type := mkUrlItem
  { retrievedUrl : string; urlRetrievalStatus : string }.

Record UrlContextMetadata : Type := mkUrlMeta
  { urlMetadata : option (list UrlContextMetadataItem) }.

Record Candidate : Type := mkCandidate
  { finishReason : option string;
    urlContextMetadata : option UrlContextMetadata }.

Record GenerateContentResponse : Type := mkResponse
  { text : option string; candidates : option (list Candidate) }.

End Sdk.

(** ** services/geminiService.ts *)

Module GeminiResponse.
Record t : Type := mk
  { text : option string;
    urlContextMetadata : option (list Sdk.UrlContextMetadataItem) }.
End GeminiResponse.

Definition MODEL_NAME : string := "gemini-2.5-flash".

Definition safetySettings : list Sdk.SafetySetting :=
  [ Sdk.mkSafety Sdk.HARM_CATEGORY_HARASSMENT Sdk.BLOCK_MEDIUM_AND_ABOVE;
    Sdk.mkSafety Sdk.HARM_CATEGORY_HATE_SPEECH Sdk.BLOCK_MEDIUM_AND_ABOVE;
    Sdk.mkSafety Sdk.HARM_CATEGORY_SEXUALLY_EXPLICIT Sdk.BLOCK_MEDIUM_AND_ABOVE;
    Sdk.mkSafety Sdk.HARM_CATEGORY_DANGEROUS_CONTENT Sdk.BLOCK_MEDIUM_AND_ABOVE ].

(** [/\[.*?\]\s*/] *)
Definition bracketTagRegex : list node :=
  [ Char "["; Star false isDot; Char "]"; Star true isWhiteSpace ].

(** [/^GoogleGenAIError:\s*/] *)
Definition errorPrefixRegex : list node :=
  AssertStart :: literal "GoogleGenAIError:" ++ [ Star true isWhiteSpace ].

Definition MSG_AUTH : string :=
  "Authentication failed. Please verify your API Key.".
Definition MSG_QUOTA : string :=
  "Usage limit exceeded. Please try again later.".
Definition MSG_UNAVAILABLE : string :=
  "The AI service is temporarily unavailable. Please try again in a few moments.".
Definition MSG_NETWORK : string :=
  "Network connection failed. Please check your internet connection.".
Definition MSG_SAFETY : string :=
  "The content was blocked due to safety policies. Please try a different prompt.".
Definition MSG_CANDIDATE : string :=
  "The model could not generate a valid response for this request.".
Definition MSG_UNEXPECTED : string :=
  "An unexpected error occurred while communicating with the AI service.".

(** geminiService.ts, lines 43-74. *)
Definition formatGeminiError (error : Thrown) : string :=
  match error with
  | ErrorObj msg =>
      let lowerMsg := toLowerCase msg in
      if includes lowerMsg "403" || includes lowerMsg "api key" then
        MSG_AUTH
      else if includes lowerMsg "429" || includes lowerMsg "quota" then
        MSG_QUOTA
      else if includes lowerMsg "503"
              || includes lowerMsg "service unavailable"
              || includes lowerMsg "overloaded" then
        MSG_UNAVAILABLE
      else if includes lowerMsg "network"
              || includes lowerMsg "fetch failed"
              || includes lowerMsg "failed to fetch" then
        MSG_NETWORK
      else if includes lowerMsg "safety" || includes lowerMsg "blocked" then
        MSG_SAFETY
      else if includes lowerMsg "candidate" then
        MSG_CANDIDATE
      else
        removeFirst errorPrefixRegex (removeFirst bracketTagRegex msg)
  | NonError => MSG_UNEXPECTED
  end.

(** A gateway operation returns the requests it sent to the service,
    in order, next to its outcome. *)
Definition Traced (A : Type) : Type := (list Sdk.Request * Outcome A)%type.

Section Gateway.

(** [process.env.API_KEY] *)
Variable API_KEY : option string.

(** [ai.models.generateContent], the hosted service. *)
Variable generateContent :
  Sdk.Request -> Outcome Sdk.GenerateContentResponse.

(** Lines 19-28; the client handle it caches is not observable. *)
Definition getAiInstance : Outcome unit :=
  if negb (truthy API_KEY) then
    Throw (ErrorObj
      "Gemini API Key not configured. Please check your environment settings.")
  else Return tt.

(** [fullPrompt], lines 83-87. *)
Definition fullPromptOf (prompt : string) (urls : list string) : string :=
  if (0 <? List.length urls)%nat then
    prompt ++ nl ++ nl ++ "Relevant URLs for context:" ++ nl ++ join nl urls
  else prompt.

(** [tools], line 91. *)
Definition toolsOf (urls : list string) : option (list Sdk.Tool) :=
  if (0 <? List.length urls)%nat then Some [Sdk.UrlContextTool] else None.

(** [parts], lines 93-101. *)
Definition partsOf (fullPrompt : string) (fileParts : list Sdk.Part)
  : list Sdk.Part :=
  (if (0 <? List.length fileParts)%nat then [] ++ fileParts else [])
    ++ [Sdk.TextPart fullPrompt].

(** The argument of [generateContent], lines 103-113. *)
Definition generateRequest (prompt : string) (urls : list string)
           (fileParts : list Sdk.Part) : Sdk.Request :=
  Sdk.mkRequest MODEL_NAME
    [Sdk.mkContent "user" (partsOf (fullPromptOf prompt urls) fileParts)]
    (Sdk.mkConfig (toolsOf urls) safetySettings None).

(** Template-literal rendering of [candidates[0].finishReason]. *)
Definition showFinishReason (r : option string) : string :=
  match r with
  | Some s => s
  | None => "undefined"
  end.

Definition isStop (r : option string) : bool :=
  match r with
  | Some s => (s =? "STOP")%string
  | None => false
  end.

(** The body of the [try] block after the service answered, lines
    115-128. *)
Definition readResponse (response : Sdk.GenerateContentResponse)
  : Outcome GeminiResponse.t :=
  let text := orElse (Sdk.text response) EmptyString in
  match Sdk.candidates response with
  | Some (c0 :: _) =>
      if isEmpty text && negb (isStop (Sdk.finishReason c0)) then
        Throw (ErrorObj ("Response stopped due to: "
                         ++ showFinishReason (Sdk.finishReason c0)))
      else
        Return (GeminiResponse.mk (Some text)
                  match Sdk.urlContextMetadata c0 with
                  | Some m => Sdk.urlMetadata m
                  | None => None
                  end)
  | _ => Return (GeminiResponse.mk (Some text) None)
  end.

(** [catch (error) { throw new Error(formatGeminiError(error)); }] *)
Definition rethrowFormatted {A : Type} (m : Outcome A) : Outcome A :=
  match m with
  | Return a => Return a
  | Throw error => Throw (ErrorObj (formatGeminiError error))
  end.

(** Lines 76-133.  [getAiInstance] is called before the [try], so its
    error is not reformatted. *)
Definition generateContentWithContext (prompt : string)
           (urls : list string) (fileParts : list Sdk.Part)
  : Traced GeminiResponse.t :=
  match getAiInstance with
  | Throw e => ([], Throw e)
  | Return _ =>
      let request := generateRequest prompt urls fileParts in
      ([request],
       rethrowFormatted (bindOutcome (generateContent request) readResponse))
  end.

Definition generateContentWithUrlContext (prompt : string)
           (urls : list string) : Traced GeminiResponse.t :=
  generateContentWithContext prompt urls [].

Definition SUMMARY_PROMPT : string :=
  "Please provide a concise and clear summary of the key information contained in the following URLs. Focus on the main topics and takeaways.".

Definition getSummaryForUrls (urls : list string) : Traced string :=
  let (sent, r) := generateContentWithContext SUMMARY_PROMPT urls [] in
  (sent,
   rethrowFormatted
     (bindOutcome r (fun response =>
        Return (orElse (GeminiResponse.text response)
                       "No summary available.")))).

Definition quoted (s : string) : string :=
  String DQUOTE s ++ String DQUOTE EmptyString.

(** [JSON.stringify({ suggestions: [...] })] of the canned payload. *)
Definition CANNED_SUGGESTIONS : string :=
  "{" ++ quoted "suggestions" ++ ":["
      ++ quoted "Add some URLs or Files to get topic suggestions." ++ "]}".

Definition suggestionsPrompt (urls : list string) : string :=
  "Based on the content of the following documentation URLs, provide 3-4 concise and actionable questions a developer might ask to explore these documents. Return ONLY a JSON object with a key "
    ++ quoted "suggestions" ++ "." ++ nl ++ nl
    ++ "Relevant URLs:" ++ nl ++ join nl urls.

Definition suggestionsRequest (urls : list string) : Sdk.Request :=
  Sdk.mkRequest MODEL_NAME
    [Sdk.mkContent "user" [Sdk.TextPart (suggestionsPrompt urls)]]
    (Sdk.mkConfig None safetySettings (Some "application/json")).

Definition getInitialSuggestions (urls : list string)
  : Traced GeminiResponse.t :=
  if (List.length urls =? 0)%nat then
    ([], Return (GeminiResponse.mk (Some CANNED_SUGGESTIONS) None))
  else
    match getAiInstance with
    | Throw e => ([], Throw e)
    | Return _ =>
        let request := suggestionsRequest urls in
        ([request],
         rethrowFormatted
           (bindOutcome (generateContent request) (fun response =>
              Return (GeminiResponse.mk (Sdk.text response) None))))
    end.

End Gateway.

(** ** types.ts and the browser's [File]

    types.ts is not among the sources: [URLGroup], [MessageSender] and
    [ChatMessage] follow section 3 of the specification and the fields
    the code reads and writes. *)

Module File.
(** A [File] handle: the metadata the code reads, and a key standing
    for the byte content, which only [FileReader] can look at. *)
Record t : Type := mk
  { name : string; size : N; type : string; blob : nat }.
End File.

Module URLGroup.
(** Modelled from the spec: the declaration in types.ts is missing; the
    fields are those of section 3 and of [INITIAL_URL_GROUPS]. *)
Record t : Type := mk
  { id : string; name : string; urls : list string; files : list File.t }.

(** [{ ...group, urls: u }] *)
Definition withUrls (g : t) (u : list string) : t :=
  mk (id g) (name g) u (files g).

(** [{ ...group, files: f }] *)
Definition withFiles (g : t) (f : list File.t) : t :=
  mk (id g) (name g) (urls g) f.
End URLGroup.

(** Modelled from the spec: the enum of types.ts is missing; its three
    members are those of section 3, all used in App.tsx. *)
Inductive MessageSender : Type := USER | MODEL | SYSTEM.

Module ChatMessage.
(** Modelled from the spec: the declaration in types.ts is missing; the
    fields are those of section 3, optional ones as options. *)
Record t : Type := mk
  { id : string;
    text : string;
    sender : MessageSender;
    timestamp : N;
    isLoading : option bool;
    isSummarizing : option bool;
    urlContext : option (list Sdk.UrlContextMetadataItem);
    summary : option string }.
End ChatMessage.

(** ** App.tsx: constants *)

Definition GEMINI_DOCS_URLS : list string :=
  [ "https://ai.google.dev/gemini-api/docs";
    "https://ai.google.dev/gemini-api/docs/quickstart";
    "https://ai.google.dev/gemini-api/docs/api-key";
    "https://ai.google.dev/gemini-api/docs/libraries";
    "https://ai.google.dev/gemini-api/docs/models";
    "https://ai.google.dev/gemini-api/docs/pricing";
    "https://ai.google.dev/gemini-api/docs/rate-limits";
    "https://ai.google.dev/gemini-api/docs/billing";
    "https://ai.google.dev/gemini-api/docs/changelog" ].

Definition MODEL_CAPABILITIES_URLS : list string :=
  [ "https://ai.google.dev/gemini-api/docs/text-generation";
    "https://ai.google.dev/gemini-api/docs/image-generation";
    "https://ai.google.dev/gemini-api/docs/video";
    "https://ai.google.dev/gemini-api/docs/speech-generation";
    "https://ai.google.dev/gemini-api/docs/music-generation";
    "https://ai.google.dev/gemini-api/docs/long-context";
    "https://ai.google.dev/gemini-api/docs/structured-output";
    "https://ai.google.dev/gemini-api/docs/thinking";
    "https://ai.google.dev/gemini-api/docs/function-calling";
    "https://ai.google.dev/gemini-api/docs/document-processing";
    "https://ai.google.dev/gemini-api/docs/image-understanding";
    "https://ai.google.dev/gemini-api/docs/video-understanding";
    "https://ai.google.dev/gemini-api/docs/audio";
    "https://ai.google.dev/gemini-api/docs/code-execution";
    "https://ai.google.dev/gemini-api/docs/grounding" ].

Definition INITIAL_URL_GROUPS : list URLGroup.t :=
  [ URLGroup.mk "gemini-overview" "Gemini Docs Overview" GEMINI_DOCS_URLS [];
    URLGroup.mk "model-capabilities" "Model Capabilities"
      MODEL_CAPABILITIES_URLS [] ].

Definition MAX_URLS : nat := 20.
Definition MAX_FILES : nat := 50.

(** ** App.tsx: the file encoder *)

Section FileEncoder.

(** [FileReader.readAsDataURL] and [FileReader.readAsText]: the result
    delivered to [onload], or [None] when [onerror] fires. *)
Variable readAsDataURL : File.t -> option string.
Variable readAsText : File.t -> option string.

(** [onerror] rejects with the event, which is not an [Error]. *)
Definition readFileAsBase64 (file : File.t) : Outcome (option string) :=
  match readAsDataURL file with
  | Some result => Return (nth_error (split "," result) 1)
  | None => Throw NonError
  end.

Definition readFileAsText (file : File.t) : Outcome string :=
  match readAsText file with
  | Some result => Return result
  | None => Throw NonError
  end.

(** App.tsx, [fileToPart]. *)
Definition fileToPart (file : File.t) : Outcome Sdk.Part :=
  let isImage := startsWith (File.type file) "image/" in
  let isPdf := (File.type file =? "application/pdf")%string in
  let isAudio := startsWith (File.type file) "audio/" in
  let isVideo := startsWith (File.type file) "video/" in
  if isImage || isPdf || isAudio || isVideo then
    bindOutcome (readFileAsBase64 file) (fun base64Data =>
      Return (Sdk.InlineDataPart
                (orElse (Some (File.type file)) "application/octet-stream")
                base64Data))
  else
    bindOutcome (readFileAsText file) (fun text =>
      Return (Sdk.TextPart
                ("File: " ++ File.name file ++ nl ++ "Content:" ++ nl
                 ++ text ++ nl ++ "---" ++ nl))).

(** [Promise.all]: every result in order, or a rejection. *)
Fixpoint promiseAll {A : Type} (l : list (Outcome A)) : Outcome (list A) :=
  match l with
  | [] => Return []
  | m :: l' =>
      match m, promiseAll l' with
      | Return a, Return l'' => Return (a :: l'')
      | Throw e, _ => Throw e
      | Return _, Throw e => Throw e
      end
  end.

End FileEncoder.

(** ** App.tsx: the knowledge-base store *)

(** The updaters handed to [setUrlGroups], as functions of [prevGroups]. *)

Definition handleAddUrl (activeUrlGroupId : string) (url : string)
           (prevGroups : list URLGroup.t) : list URLGroup.t :=
  map (fun group =>
         if (URLGroup.id group =? activeUrlGroupId)%string then
           if (List.length (URLGroup.urls group) <? MAX_URLS)%nat
              && negb (existsb (String.eqb url) (URLGroup.urls group))
           then URLGroup.withUrls group (URLGroup.urls group ++ [url])
           else group
         else group)
      prevGroups.

Definition handleRemoveUrl (activeUrlGroupId : string) (urlToRemove : string)
           (prevGroups : list URLGroup.t) : list URLGroup.t :=
  map (fun group =>
         if (URLGroup.id group =? activeUrlGroupId)%string then
           URLGroup.withUrls group
             (filter (fun url => negb (url =? urlToRemove)%string)
                     (URLGroup.urls group))
         else group)
      prevGroups.

Definition handleAddFiles (activeUrlGroupId : string) (newFiles : list File.t)
           (prevGroups : list URLGroup.t) : list URLGroup.t :=
  map (fun group =>
         if (URLGroup.id group =? activeUrlGroupId)%string then
           let combinedFiles := URLGroup.files group ++ newFiles in
           if (MAX_FILES <? List.length combinedFiles)%nat then
             URLGroup.withFiles group (firstn MAX_FILES combinedFiles)
           else URLGroup.withFiles group combinedFiles
         else group)
      prevGroups.

Definition handleRemoveFile (activeUrlGroupId : string) (fileName : string)
           (prevGroups : list URLGroup.t) : list URLGroup.t :=
  map (fun group =>
         if (URLGroup.id group =? activeUrlGroupId)%string then
           URLGroup.withFiles group
             (filter (fun f => negb (File.name f =? fileName)%string)
                     (URLGroup.files group))
         else group)
      prevGroups.

(** ** App.tsx: component state *)

Module App.
(** The [useState] cells of [App].  [urlGroupsStamp] stands for the
    identity of the [urlGroups] array: React compares effect
    dependencies with [Object.is], and every updater above returns the
    array freshly allocated by [map]. *)
Record State : Type := mk
  { urlGroups : list URLGroup.t;
    urlGroupsStamp : nat;
    activeUrlGroupId : string;
    chatMessages : list ChatMessage.t;
    isLoading : bool;
    isFetchingSuggestions : bool;
    initialQuerySuggestions : list string }.

Definition setUrlGroups (f : list URLGroup.t -> list URLGroup.t)
           (st : State) : State :=
  mk (f (urlGroups st)) (S (urlGroupsStamp st)) (activeUrlGroupId st)
     (chatMessages st) (isLoading st) (isFetchingSuggestions st)
     (initialQuerySuggestions st).

Definition setActiveUrlGroupId (id : string) (st : State) : State :=
  mk (urlGroups st) (urlGroupsStamp st) id
     (chatMessages st) (isLoading st) (isFetchingSuggestions st)
     (initialQuerySuggestions st).

Definition setChatMessages
           (f : list ChatMessage.t -> list ChatMessage.t)
           (st : State) : State :=
  mk (urlGroups st) (urlGroupsStamp st) (activeUrlGroupId st)
     (f (chatMessages st)) (isLoading st) (isFetchingSuggestions st)
     (initialQuerySuggestions st).

Definition setIsLoading (b : bool) (st : State) : State :=
  mk (urlGroups st) (urlGroupsStamp st) (activeUrlGroupId st)
     (chatMessages st) b (isFetchingSuggestions st)
     (initialQuerySuggestions st).

Definition setIsFetchingSuggestions (b : bool) (st : State) : State :=
  mk (urlGroups st) (urlGroupsStamp st) (activeUrlGroupId st)
     (chatMessages st) (isLoading st) b (initialQuerySuggestions st).

Definition setInitialQuerySuggestions (l : list string) (st : State)
  : State :=
  mk (urlGroups st) (urlGroupsStamp st) (activeUrlGroupId st)
     (chatMessages st) (isLoading st) (isFetchingSuggestions st) l.

(** [urlGroups.find(group => group.id === activeUrlGroupId)] *)
Definition activeGroup (st : State) : option URLGroup.t :=
  find (fun group => (URLGroup.id group =? activeUrlGroupId st)%string)
       (urlGroups st).

Definition currentUrlsForChat (st : State) : list string :=
  match activeGroup st with
  | Some g => URLGroup.urls g
  | None => []
  end.

Definition currentFilesForChat (st : State) : list File.t :=
  match activeGroup st with
  | Some g => URLGroup.files g
  | None => []
  end.

Definition initial : State :=
  mk INITIAL_URL_GROUPS 0
     (URLGroup.id (hd (URLGroup.mk EmptyString EmptyString [] [])
                      INITIAL_URL_GROUPS))
     [] false false [].
End App.

(** ** Parsed JSON values *)

#[warning="-register-all"]
Inductive JsValue : Type :=
| JNull
| JBool (b : bool)
| JNumber (zero : bool)        (* only the truthiness of a number is read *)
| JString (s : string)
| JArray (items : list JsValue)
| JObject (props : list (string * JsValue)).

Definition isTruthy (v : JsValue) : bool :=
  match v with
  | JNull => false
  | JBool b => b
  | JNumber zero => negb zero
  | JString s => negb (isEmpty s)
  | JArray _ => true
  | JObject _ => true
  end.

(** [v.suggestions]-style property read on a parsed JSON value; only an
    object has own properties named by a JSON key. *)
Definition getProp (key : string) (v : JsValue) : option JsValue :=
  match v with
  | JObject props =>
      match find (fun p => (fst p =? key)%string) props with
      | Some p => Some (snd p)
      | None => None
      end
  | _ => None
  end.

(** [a.filter(s => typeof s === 'string')] *)
Fixpoint filterStrings (items : list JsValue) : list string :=
  match items with
  | [] => []
  | JString s :: items' => s :: filterStrings items'
  | _ :: items' => filterStrings items'
  end.

(** [fenceRegex]: start, three backticks, an optional group 1 of [\w*],
    [\s*], an optional LF, group 2 [.*?], an optional LF, [\s*], three
    backticks, end; flag [s]. *)
Definition fenceRegex : list node :=
  [ AssertStart; Char BACKTICK; Char BACKTICK; Char BACKTICK;
    Opt (Group 1 (Star true isWordChar));
    Star true isWhiteSpace;
    Opt (Char LF);
    Group 2 (Star false isAny);
    Opt (Char LF);
    Star true isWhiteSpace;
    Char BACKTICK; Char BACKTICK; Char BACKTICK; AssertEnd ].

(** ** App.tsx: the conversation controller *)

Section Controller.

Variable API_KEY : option string.
Variable generateContent :
  Sdk.Request -> Outcome Sdk.GenerateContentResponse.
Variable readAsDataURL : File.t -> option string.
Variable readAsText : File.t -> option string.

(** [navigator.onLine] *)
Variable onLine : bool.

(** [JSON.parse]; [None] when it throws. *)
Variable JSON_parse : string -> option JsValue.

(** The welcome effect, with [Date.now()] read as [now]. *)
Definition welcomeMessageText (st : App.State) : string :=
  if negb (truthy API_KEY) then
    "Error: Gemini API Key (process.env.API_KEY) is not configured. Please set this environment variable to use the application."
  else
    "Welcome! You're currently browsing "
      ++ quoted (orElse (option_map URLGroup.name (App.activeGroup st))
                        "Unknown")
      ++ ". Add URLs or upload files/folders to ask questions about them.".

Definition welcomeMessage (now : N) (st : App.State) : ChatMessage.t :=
  ChatMessage.mk
    ("system-welcome-" ++ App.activeUrlGroupId st ++ "-" ++ ofNumber now)
    (welcomeMessageText st) SYSTEM now None None None None.

Definition welcomeEffect (now : N) (st : App.State) : App.State :=
  App.setChatMessages (fun _ => [welcomeMessage now st]) st.

(** Whether a dependency of the welcome effect,
    [[activeUrlGroupId, urlGroups]], changed between two renders. *)
Definition welcomeDepsChanged (prev next : App.State) : bool :=
  negb (App.activeUrlGroupId prev =? App.activeUrlGroupId next)%string
  || negb (App.urlGroupsStamp prev =? App.urlGroupsStamp next)%nat.

(** The render that follows a state change: the welcome effect runs
    when one of its dependencies changed.  The other effect of [App],
    the suggestion prefetch, writes neither the store nor the
    transcript; it is [fetchAndSetInitialSuggestions] below. *)
Definition commit (now : N) (prev next : App.State) : App.State :=
  if welcomeDepsChanged prev next then welcomeEffect now next else next.

(** The first render runs every effect. *)
Definition mount (now : N) : App.State := welcomeEffect now App.initial.

(** The text handed to [JSON.parse]. *)
Definition jsonSource (text : string) : string :=
  let jsonStr := trim text in
  match exec fenceRegex jsonStr with
  | Some m =>
      match capture 2 (groups m) with
      | Some g2 => if isEmpty g2 then jsonStr else trim g2
      | None => jsonStr
      end
  | None => jsonStr
  end.

(** The inner [try] of [fetchAndSetInitialSuggestions]: the value of
    [suggestionsArray] for a non-empty response text. *)
Definition parseSuggestions (text : string) : list string :=
  match JSON_parse (jsonSource text) with
  | Some parsed =>
      if isTruthy parsed then
        match getProp "suggestions" parsed with
        | Some (JArray items) => filterStrings items
        | _ => []
        end
      else []
  | None => []      (* catch (parseError): a warning is logged *)
  end.

Definition fetchAndSetInitialSuggestions (currentUrls : list string)
           (st : App.State) : list Sdk.Request * App.State :=
  if negb (truthy API_KEY) then ([], st)
  else if (List.length currentUrls =? 0)%nat then
    ([], App.setInitialQuerySuggestions [] st)
  else
    let st1 :=
      App.setInitialQuerySuggestions []
        (App.setIsFetchingSuggestions true st) in
    let (sent, r) :=
      getInitialSuggestions API_KEY generateContent currentUrls in
    let st2 :=
      match r with
      | Return response =>
          let suggestionsArray :=
            if truthy (GeminiResponse.text response) then
              parseSuggestions
                (orElse (GeminiResponse.text response) EmptyString)
            else [] in
          App.setInitialQuerySuggestions (firstn 4 suggestionsArray) st1
      | Throw _ => st1     (* catch (e): a warning is logged *)
      end in
    (sent, App.setIsFetchingSuggestions false st2).

Definition OFFLINE_NOTICE : string :=
  "Error: You appear to be offline. Please check your internet connection.".

(** [prevMessages.map(msg => msg.id === id ? replacement : msg)] *)
Definition replaceById (id : string) (replacement : ChatMessage.t)
           (prevMessages : list ChatMessage.t) : list ChatMessage.t :=
  map (fun msg =>
         if (ChatMessage.id msg =? id)%string then replacement else msg)
      prevMessages.

(** [handleSendMessage], run to completion; [now] and [now'] are the
    two readings of [Date.now()]. *)
Definition handleSendMessage (now now' : N) (query : string)
           (st : App.State) : list Sdk.Request * App.State :=
  if isEmpty (trim query) || App.isLoading st
     || App.isFetchingSuggestions st then ([], st)
  else if negb onLine then
    ([], App.setChatMessages
           (fun prev =>
              prev ++ [ChatMessage.mk ("sys-offline-" ++ ofNumber now)
                         OFFLINE_NOTICE SYSTEM now None None None None])
           st)
  else if negb (truthy API_KEY) then
    ([], App.setChatMessages
           (fun prev =>
              prev ++ [ChatMessage.mk ("error-apikey-" ++ ofNumber now)
                         "Error: API Key is not configured."
                         SYSTEM now None None None None])
           st)
  else
    let userMessage :=
      ChatMessage.mk ("user-" ++ ofNumber now) query USER now
                     None None None None in
    let modelPlaceholderMessage :=
      ChatMessage.mk ("model-response-" ++ ofNumber now') "Thinking..."
                     MODEL now' (Some true) None None None in
    let st1 :=
      App.setChatMessages
        (fun prevMessages =>
           prevMessages ++ [userMessage; modelPlaceholderMessage])
        (App.setInitialQuerySuggestions [] (App.setIsLoading true st)) in
    let fileParts :=
      if (0 <? List.length (App.currentFilesForChat st))%nat then
        promiseAll (map (fileToPart readAsDataURL readAsText)
                        (App.currentFilesForChat st))
      else Return [] in
    let (sent, r) :=
      match fileParts with
      | Return fileParts =>
          generateContentWithContext API_KEY generateContent query
            (App.currentUrlsForChat st) fileParts
      | Throw e => ([], Throw e)
      end in
    let st2 :=
      match r with
      | Return response =>
          App.setChatMessages
            (replaceById (ChatMessage.id modelPlaceholderMessage)
               (ChatMessage.mk (ChatMessage.id modelPlaceholderMessage)
                  (orElse (GeminiResponse.text response)
                          "I received an empty response.")
                  MODEL now' (Some false) None
                  (GeminiResponse.urlContextMetadata response) None))
            st1
      | Throw e =>
          let errorMessage :=
            orElse (messageOf e) "An unexpected error occurred." in
          App.setChatMessages
            (replaceById (ChatMessage.id modelPlaceholderMessage)
               (ChatMessage.mk (ChatMessage.id modelPlaceholderMessage)
                  ("Error: " ++ errorMessage)
                  SYSTEM now' (Some false) None None None))
            st1
      end in
    (sent, App.setIsLoading false st2).

(** The callbacks [App] passes down to [KnowledgeBaseManager]. *)
Inductive Action : Type :=
| OnAddUrl (url : string)
| OnRemoveUrl (url : string)
| OnAddFiles (files : list File.t)
| OnRemoveFile (fileName : string)
| OnSetGroupId (id : string).

Definition handle (a : Action) (st : App.State) : App.State :=
  match a with
  | OnAddUrl url =>
      App.setUrlGroups (handleAddUrl (App.activeUrlGroupId st) url) st
  | OnRemoveUrl url =>
      App.setUrlGroups (handleRemoveUrl (App.activeUrlGroupId st) url) st
  | OnAddFiles files =>
      App.setUrlGroups (handleAddFiles (App.activeUrlGroupId st) files) st
  | OnRemoveFile fileName =>
      App.setUrlGroups
        (handleRemoveFile (App.activeUrlGroupId st) fileName) st
  | OnSetGroupId id => App.setActiveUrlGroupId id st
  end.

(** A callback, then the render it causes, at time [now]. *)
Definition dispatch (ev : N * Action) (st : App.State) : App.State :=
  commit (fst ev) st (handle (snd ev) st).

Definition run (evs : list (N * Action)) (st : App.State) : App.State :=
  fold_left (fun s ev => dispatch ev s) evs st.

End Controller.

(** ** components/KnowledgeBaseManager.tsx: the add handlers *)

Module KnowledgeBaseManager.

Record Props : Type := mkProps
  { urls : list string; files : list File.t; maxUrls : nat }.

Record State : Type := mkState
  { currentUrlInput : string; error : option string }.

(** What [App] renders the component with. *)
Definition propsOf (st : App.State) : Props :=
  mkProps (App.currentUrlsForChat st) (App.currentFilesForChat st) MAX_URLS.

Section Handlers.

(** [new URL(urlString)] does not throw. *)
Variable isValidUrl : string -> bool.

(** The new component state, and the callback invoked, if any. *)
Definition handleAddUrl (props : Props) (st : State)
  : State * option Action :=
  if isEmpty (trim (currentUrlInput st)) then
    (mkState (currentUrlInput st) (Some "URL cannot be empty."), None)
  else if negb (isValidUrl (currentUrlInput st)) then
    (mkState (currentUrlInput st)
       (Some "Invalid URL format. Please include http:// or https://"),
     None)
  else if (maxUrls props <=? List.length (urls props))%nat then
    (mkState (currentUrlInput st)
       (Some ("You can add a maximum of "
              ++ ofNumber (N.of_nat (maxUrls props))
              ++ " URLs to the current group.")%string),
     None)
  else if existsb (String.eqb (currentUrlInput st)) (urls props) then
    (mkState (currentUrlInput st)
       (Some "This URL has already been added to the current group."),
     None)
  else
    (mkState EmptyString None, Some (OnAddUrl (currentUrlInput st))).

(** [newFiles] is [Array.from(e.target.files)]; [App] always passes
    [onAddFiles]. *)
Definition handleFileChange (props : Props) (newFiles : list File.t)
           (st : State) : State * option Action :=
  if (0 <? List.length newFiles)%nat then
    let existingNames := map File.name (files props) in
    let uniqueFiles :=
      filter (fun f =>
                negb (existsb (String.eqb (File.name f)) existingNames))
             newFiles in
    let error' :=
      if (List.length uniqueFiles <? List.length newFiles)%nat then
        Some ("Skipped "
              ++ ofNumber (N.of_nat (List.length newFiles
                                     - List.length uniqueFiles))
              ++ " duplicate files.")%string
      else None in
    (mkState (currentUrlInput st) error',
     if (0 <? List.length uniqueFiles)%nat
     then Some (OnAddFiles uniqueFiles) else None)
  else (st, None).

End Handlers.

(** A file selection in the sidebar, seen from [App]: the store after
    the callback, if one is invoked, and the render it causes. *)
Definition fileChange (API_KEY : option string) (now : N)
           (newFiles : list File.t) (st : App.State) : App.State :=
  match snd (handleFileChange (propsOf st) newFiles
               (mkState EmptyString None)) with
  | Some a => dispatch API_KEY (now, a) st
  | None => st
  end.

End KnowledgeBaseManager.

(** ** App.tsx: the summarize handler *)




Section Summarizer.

Variable API_KEY : option string.
Variable generateContent :
  Sdk.Request -> Outcome Sdk.GenerateContentResponse.


End Summarizer.

(** ** App.tsx: the suggestion prefetch effect *)

(** The second [useEffect] of [App], run to completion. *)
Definition suggestionsEffect (API_KEY : option string)
           (generateContent :
              Sdk.Request -> Outcome Sdk.GenerateContentResponse)
           (JSON_parse : string -> option JsValue) (st : App.State)
  : list Sdk.Request * App.State :=
  if (0 <? List.length (App.currentUrlsForChat st))%nat && truthy API_KEY
  then
    fetchAndSetInitialSuggestions API_KEY generateContent JSON_parse
      (App.currentUrlsForChat st) st
  else ([], App.setInitialQuerySuggestions [] st).

(** ** components/MessageItem.tsx: what a message is rendered as *)

(** [s.replace(needle, '')] for a string pattern: the first occurrence
    of [needle] is taken out. *)
Fixpoint drop (n : nat) (s : string) : string :=
  match n, s with
  | S n', String _ s' => drop n' s'
  | _, _ => s
  end.

Fixpoint removeFirstString (needle s : string) : string :=
  if startsWith s needle then drop (String.length needle) s
  else match s with
       | EmptyString => EmptyString
       | String c s' => String c (removeFirstString needle s')
       end.

Module MessageItem.

Definition isUser (message : ChatMessage.t) : bool :=
  match ChatMessage.sender message with USER => true | _ => false end.

Definition isModel (message : ChatMessage.t) : bool :=
  match ChatMessage.sender message with MODEL => true | _ => false end.

Definition isSystem (message : ChatMessage.t) : bool :=
  match ChatMessage.sender message with SYSTEM => true | _ => false end.

Definition isError (message : ChatMessage.t) : bool :=
  isSystem message && startsWith (ChatMessage.text message) "Error:".

(** The filter of [successfulUrls]; a status is always a string here. *)
Definition isSuccessful (meta : Sdk.UrlContextMetadataItem) : bool :=
  let status := orElse (Some (Sdk.urlRetrievalStatus meta)) EmptyString in
  includes status "SUCCESS" || (status =? "OK")%string.


(** The label of a row of the retrieved-URL list. *)
Definition statusText (meta : Sdk.UrlContextMetadataItem) : string :=
  removeFirstString "URL_RETRIEVAL_STATUS_" (Sdk.urlRetrievalStatus meta).

(** Whether the row gets the success badge. *)
Definition isSuccess (meta : Sdk.UrlContextMetadataItem) : bool :=
  includes (statusText meta) "SUCCESS".

Definition isTrue (o : option bool) : bool :=
  match o with Some b => b | None => false end.



(** [textColorClass] of [renderMessageContent]. *)
Inductive TextColor : Type :=
| TextWhite            (* text-white *)
| TextRed200           (* text-red-200 *)
| TextGrey             (* text-[#A8ABB4] *)
| TextModelLoading.    (* text-[#E2E2E2], the branch marked Model loading *)

(** What the bubble of a message holds, above the retrieved-URL block. *)
Inductive Content : Type :=
| LoadingDots
| Markdown (content : string)
| PlainText (textColorClass : TextColor) (text : string).

Definition renderMessageContent (message : ChatMessage.t) : Content :=
  if isModel message && negb (isTrue (ChatMessage.isLoading message)) then
    Markdown (ChatMessage.text message)
  else
    PlainText
      (if isUser message then TextWhite
       else if isError message then TextRed200
       else if isSystem message then TextGrey
       else TextModelLoading)
      (ChatMessage.text message).

(** [message.isLoading ? dots : renderMessageContent()] *)
Definition bubbleContent (message : ChatMessage.t) : Content :=
  if isTrue (ChatMessage.isLoading message) then LoadingDots
  else renderMessageContent message.

End MessageItem.

(** ** Vocabulary of the specification *)

(** Both caps of one group (spec, section 3: invariants). *)
Definition withinCaps (g : URLGroup.t) : Prop :=
  (List.length (URLGroup.urls g) <= MAX_URLS)%nat
  /\ (List.length (URLGroup.files g) <= MAX_FILES)%nat.

(** The same, as a test. *)
Definition withinCapsb (g : URLGroup.t) : bool :=
  (List.length (URLGroup.urls g) <=? MAX_URLS)%nat
  && (List.length (URLGroup.files g) <=? MAX_FILES)%nat.

(** The MIME types the file encoder sends as inline binary data (spec,
    section 4.1). *)
Definition binaryMime (mime : string) : Prop :=
  (exists rest, mime = "image/" ++ rest)%string
  \/ (exists rest, mime = "audio/" ++ rest)%string
  \/ (exists rest, mime = "video/" ++ rest)%string
  \/ mime = "application/pdf".

(** The error categories of the gateway (spec, section 4.2). *)
Inductive ErrorCategory : Type :=
| AuthenticationFailure
| QuotaExceeded
| ServiceUnavailable
| NetworkFailure
| SafetyBlock
| InvalidCandidate
| GenericFallback.

(** The fixed ordered list of keyword sets, as the specification words
    the normalization: the first set with a keyword occurring in the
    lower-cased message wins. *)
Definition KEYWORD_SETS : list (list string * ErrorCategory) :=
  [ (["403"; "api key"], AuthenticationFailure);
    (["429"; "quota"], QuotaExceeded);
    (["503"; "service unavailable"; "overloaded"], ServiceUnavailable);
    (["network"; "fetch failed"; "failed to fetch"], NetworkFailure);
    (["safety"; "blocked"], SafetyBlock);
    (["candidate"], InvalidCandidate) ].

Definition matchesSet (lowerMsg : string) (keywords : list string) : bool :=
  existsb (includes lowerMsg) keywords.

Fixpoint firstMatch (lowerMsg : string)
         (table : list (list string * ErrorCategory)) : ErrorCategory :=
  match table with
  | [] => GenericFallback
  | (keywords, c) :: table' =>
      if matchesSet lowerMsg keywords then c else firstMatch lowerMsg table'
  end.

Definition classify (error : Thrown) : ErrorCategory :=
  match error with
  | ErrorObj msg => firstMatch (toLowerCase msg) KEYWORD_SETS
  | NonError => GenericFallback
  end.

(** The user-facing text of a category; the fallback keeps the message
    of an [Error], cleaned of its prefixes, and is a fixed sentence for
    any other thrown value. *)
Definition categoryText (c : ErrorCategory) (error : Thrown) : string :=
  match c with
  | AuthenticationFailure => MSG_AUTH
  | QuotaExceeded => MSG_QUOTA
  | ServiceUnavailable => MSG_UNAVAILABLE
  | NetworkFailure => MSG_NETWORK
  | SafetyBlock => MSG_SAFETY
  | InvalidCandidate => MSG_CANDIDATE
  | GenericFallback =>
      match error with
      | ErrorObj msg =>
          removeFirst errorPrefixRegex (removeFirst bracketTagRegex msg)
      | NonError => MSG_UNEXPECTED
      end
  end.

(** ** Sample data for the instances of Part IV *)

Module Sample.

Definition key : option string := Some "sample-key".

Definition notes : File.t := File.mk "notes.txt" 12 "text/plain" 0.
Definition todo : File.t := File.mk "todo.md" 40 "text/markdown" 1.
Definition logo : File.t := File.mk "logo.png" 2048 "image/png" 2.

(** What [FileReader] delivers for the sample files. *)
Definition readAsDataURL (f : File.t) : option string :=
  if (File.name f =? "logo.png")%string
  then Some "data:image/png;base64,iVBORw0KGgo="
  else None.

Definition readAsText (f : File.t) : option string :=
  if (File.name f =? "notes.txt")%string then Some "remember the milk"
  else None.

(** Five more URLs for the second seed group, which has 15. *)
Definition moreUrls : list string :=
  map (fun n => ("https://example.org/" ++ ofNumber (N.of_nat n))%string)
      (seq 0 5).

(** The seed store after a switch to the second group, five adds that
    fill it, and one file. *)
Definition fullStore : App.State :=
  run key
    ((1%N, OnSetGroupId "model-capabilities")
       :: map (fun url => (2%N, OnAddUrl url)) moreUrls
       ++ [(3%N, OnAddFiles [notes])])
    App.initial.

Definition fullGroup : URLGroup.t :=
  URLGroup.mk "model-capabilities" "Model Capabilities"
    (MODEL_CAPABILITIES_URLS ++ moreUrls) [notes].

(** A response with no text, stopped for the given reason. *)
Definition stopped (reason : string) : Sdk.GenerateContentResponse :=
  Sdk.mkResponse (Some EmptyString)
    (Some [Sdk.mkCandidate (Some reason) None]).

Definition answering (r : Sdk.GenerateContentResponse)
  : Sdk.Request -> Outcome Sdk.GenerateContentResponse :=
  fun _ => Return r.

(** The fenced block of the specification's example, and its payload. *)
Definition payload : string :=
  "{" ++ quoted "suggestions" ++ ":[" ++ quoted "a" ++ ","
      ++ quoted "b" ++ "]}".

Definition fenced : string := "```json" ++ nl ++ payload ++ nl ++ "```".

(** [JSON.parse] on the payload; every other text of the instances
    is not JSON. *)
Definition JSON_parse (s : string) : option JsValue :=
  if (s =? payload)%string
  then Some (JObject [("suggestions", JArray [JString "a"; JString "b"])])
  else None.

End Sample.

(** ** Further vocabulary and sample data *)

(** The URLs of a group are pairwise different. *)
Definition uniqueUrls (g : URLGroup.t) : Prop := NoDup (URLGroup.urls g).

(** The file names of a group are pairwise different. *)
Definition uniqueFileNames (g : URLGroup.t) : Prop :=
  NoDup (map File.name (URLGroup.files g)).

(** A store event that is not a switch to an unknown group. *)
Definition knownSwitch (ids : list string) (ev : N * Action) : Prop :=
  match snd ev with
  | OnSetGroupId id => In id ids
  | _ => True
  end.

(** [response.candidates?.[0]] *)
Definition firstCandidate (response : Sdk.GenerateContentResponse)
  : option Sdk.Candidate :=
  match Sdk.candidates response with
  | Some (c0 :: _) => Some c0
  | _ => None
  end.

(** The message of [getAiInstance]'s error. *)
Definition MSG_NO_KEY : string :=
  "Gemini API Key not configured. Please check your environment settings.".

(** Names for the steps of an accepted [handleSendMessage]: the encoding
    of the active group's files, the gateway call that follows it, and
    the message the placeholder is replaced by.  The lemma
    [handleSendMessage_accepted] ties them to the handler. *)
Definition encodeFiles (readAsDataURL readAsText : File.t -> option string)
           (st : App.State) : Outcome (list Sdk.Part) :=
  if (0 <? List.length (App.currentFilesForChat st))%nat then
    promiseAll (map (fileToPart readAsDataURL readAsText)
                    (App.currentFilesForChat st))
  else Return [].

Definition askGateway (API_KEY : option string)
           (generateContent :
              Sdk.Request -> Outcome Sdk.GenerateContentResponse)
           (readAsDataURL readAsText : File.t -> option string)
           (query : string) (st : App.State) : Traced GeminiResponse.t :=
  match encodeFiles readAsDataURL readAsText st with
  | Return fileParts =>
      generateContentWithContext API_KEY generateContent query
        (App.currentUrlsForChat st) fileParts
  | Throw e => ([], Throw e)
  end.

Definition settledMessage (now' : N) (r : Outcome GeminiResponse.t)
  : ChatMessage.t :=
  match r with
  | Return response =>
      ChatMessage.mk ("model-response-" ++ ofNumber now')
        (orElse (GeminiResponse.text response)
                "I received an empty response.")
        MODEL now' (Some false) None
        (GeminiResponse.urlContextMetadata response) None
  | Throw e =>
      ChatMessage.mk ("model-response-" ++ ofNumber now')
        ("Error: " ++ orElse (messageOf e) "An unexpected error occurred.")
        SYSTEM now' (Some false) None None None
  end.

Module Sample2.

(** A service that is down. *)
Definition failing (message : string)
  : Sdk.Request -> Outcome Sdk.GenerateContentResponse :=
  fun _ => Throw (ErrorObj message).

(** An answer with one retrieved URL. *)
Definition answered : Sdk.GenerateContentResponse :=
  Sdk.mkResponse (Some "It is documented there.")
    (Some [Sdk.mkCandidate (Some "STOP")
             (Some (Sdk.mkUrlMeta
                      (Some [Sdk.mkUrlItem "https://example.org/doc"
                               "URL_RETRIEVAL_STATUS_SUCCESS"])))]).



(** A store whose active group holds an unreadable file. *)
Definition brokenFile : File.t := File.mk "core.bin" 9 "video/mp4" 7.

Definition brokenStore : App.State :=
  App.mk [URLGroup.mk "g" "G" [] [brokenFile]] 0 "g" [] false false [].

(** A store whose active group holds one URL, an image and a text file,
    both readable by the sample [FileReader]. *)
Definition mixedStore : App.State :=
  App.mk [URLGroup.mk "g" "G" ["https://a.example"]
            [Sample.logo; Sample.notes]]
         0 "g" [] false false [].

(** The fragments of the two files of [mixedStore]. *)
Definition mixedParts : list Sdk.Part :=
  [ Sdk.InlineDataPart "image/png" (Some "iVBORw0KGgo=");
    Sdk.TextPart ("File: notes.txt" ++ nl ++ "Content:" ++ nl
                  ++ "remember the milk" ++ nl ++ "---" ++ nl) ].

(** [new URL(s)] on the sample inputs: a scheme is required. *)
Definition isValidUrl (s : string) : bool :=
  startsWith s "http://" || startsWith s "https://".

(** A summary returned by the service. *)
Definition summarized : Sdk.GenerateContentResponse :=
  Sdk.mkResponse (Some "Both pages describe the API.") None.

End Sample2.

(* ================================================================== *)
(** * Part II.  Facts about strings and the matcher                     *)
(* ================================================================== *)

Unset Implicit Arguments.

Section StringFacts.

Local Open Scope string_scope.

Lemma append_nil_r (s : string) : s ++ EmptyString = s.
Proof. induction s; simpl; congruence. Qed.

Lemma append_assoc (a b c : string) : (a ++ b) ++ c = a ++ b ++ c.
Proof. induction a; simpl; congruence. Qed.

Lemma length_append (a b : string) :
  String.length (a ++ b) = String.length a + String.length b.
Proof. induction a; simpl; auto. Qed.

Lemma startsWith_iff (s p : string) :
  startsWith s p = true <-> exists r, s = p ++ r.
Proof.
  revert s; induction p as [|b p IH]; intros s; simpl.
  - split; [intros _; now exists s | reflexivity].
  - destruct s as [|a s].
    + split; [discriminate | intros [r Hr]; discriminate].
    + rewrite andb_true_iff, Ascii.eqb_eq, IH. split.
      * intros [-> [r ->]]. now exists r.
      * intros [r Hr]. inversion Hr; subst. split; [reflexivity | now exists r].
Qed.

Lemma includes_iff (s sub : string) :
  includes s sub = true <-> exists a b, s = a ++ sub ++ b.
Proof.
  induction s as [|c s IH].
  - cbn [includes]. rewrite startsWith_iff. split.
    + intros [r Hr]. exists EmptyString, r. exact Hr.
    + intros [a [b Hab]]. destruct a; [now exists b | discriminate].
  - cbn [includes]. rewrite orb_true_iff, startsWith_iff, IH. split.
    + intros [[r Hr] | [a [b Hab]]].
      * exists EmptyString, r. exact Hr.
      * exists (String c a), b. simpl. now rewrite Hab.
    + intros [a [b Hab]]. destruct a as [|c' a].
      * left. now exists b.
      * right. simpl in Hab. inversion Hab; subst. now exists a, b.
Qed.

Lemma toLowerCase_append (a b : string) :
  toLowerCase (a ++ b) = toLowerCase a ++ toLowerCase b.
Proof. induction a; simpl; congruence. Qed.

Lemma toLowerCase_split (m x y : string) :
  toLowerCase m = x ++ y ->
  exists a b, m = a ++ b /\ toLowerCase a = x /\ toLowerCase b = y.
Proof.
  revert m; induction x as [|c x IH]; intros m H.
  - exists EmptyString, m. auto.
  - destruct m as [|d m]; [discriminate|].
    simpl in H. inversion H as [[Hc Hx]].
    destruct (IH _ Hx) as [a [b [-> [Ha Hb]]]].
    exists (String d a), b. simpl. rewrite Ha. auto.
Qed.

(** [lowerMsg.includes(kw)] is a substring match that ignores case. *)
Lemma includes_toLowerCase_iff (m kw : string) :
  includes (toLowerCase m) kw = true <->
  exists pre s post, m = pre ++ s ++ post /\ toLowerCase s = kw.
Proof.
  rewrite includes_iff. split.
  - intros [a [b H]].
    destruct (toLowerCase_split _ _ _ H) as [pre [r [-> [_ Hr]]]].
    destruct (toLowerCase_split _ _ _ Hr) as [s [post [-> [Hs _]]]].
    now exists pre, s, post.
  - intros [pre [s [post [-> Hs]]]].
    exists (toLowerCase pre), (toLowerCase post).
    now rewrite !toLowerCase_append, Hs.
Qed.

End StringFacts.

Section StoreFacts.

Local Open Scope list_scope.
Local Open Scope nat_scope.

Lemma length_filter_le {A : Type} (p : A -> bool) (l : list A) :
  List.length (filter p l) <= List.length l.
Proof. induction l as [|x l IH]; simpl; [|destruct (p x); simpl]; lia. Qed.

Lemma existsb_eqb_In (x : string) (l : list string) :
  existsb (String.eqb x) l = true <-> In x l.
Proof.
  rewrite existsb_exists. split.
  - intros [y [Hy He]]. apply String.eqb_eq in He. now subst.
  - intros H. exists x. split; [assumption | apply String.eqb_refl].
Qed.

Lemma find_map_same_id (a : string) (f : URLGroup.t -> URLGroup.t)
      (l : list URLGroup.t) :
  (forall g, URLGroup.id (f g) = URLGroup.id g) ->
  find (fun g => (URLGroup.id g =? a)%string) (map f l)
  = option_map f (find (fun g => (URLGroup.id g =? a)%string) l).
Proof.
  intros Hid. induction l as [|g l IH]; simpl; [reflexivity|].
  rewrite Hid. destruct (URLGroup.id g =? a)%string; simpl; auto.
Qed.

Lemma withinCapsb_correct (l : list URLGroup.t) :
  forallb withinCapsb l = true -> Forall withinCaps l.
Proof.
  intros H. apply Forall_forall. intros g Hg.
  rewrite forallb_forall in H. specialize (H g Hg).
  unfold withinCapsb in H. apply andb_true_iff in H.
  destruct H as [Hu Hf]. split; now apply Nat.leb_le.
Qed.

Lemma withinCaps_map (f : URLGroup.t -> URLGroup.t) (l : list URLGroup.t) :
  (forall g, withinCaps g -> withinCaps (f g)) ->
  Forall withinCaps l -> Forall withinCaps (map f l).
Proof. intros Hf H. induction H; simpl; constructor; auto. Qed.

Lemma handleAddUrl_caps a url l :
  Forall withinCaps l -> Forall withinCaps (handleAddUrl a url l).
Proof.
  apply withinCaps_map. intros g [Hu Hf].
  destruct (URLGroup.id g =? a)%string; [|split; assumption].
  destruct (List.length (URLGroup.urls g) <? MAX_URLS) eqn:Hlt;
    simpl; [|split; assumption].
  destruct (existsb (String.eqb url) (URLGroup.urls g));
    simpl; [split; assumption|].
  apply Nat.ltb_lt in Hlt. split; simpl; [|assumption].
  rewrite length_app; simpl; lia.
Qed.

Lemma handleRemoveUrl_caps a url l :
  Forall withinCaps l -> Forall withinCaps (handleRemoveUrl a url l).
Proof.
  apply withinCaps_map. intros g [Hu Hf].
  destruct (URLGroup.id g =? a)%string; split; simpl; try assumption.
  eapply Nat.le_trans; [apply length_filter_le | assumption].
Qed.

Lemma handleAddFiles_caps a fs l :
  Forall withinCaps l -> Forall withinCaps (handleAddFiles a fs l).
Proof.
  apply withinCaps_map. intros g [Hu Hf].
  destruct (URLGroup.id g =? a)%string; [|split; assumption].
  cbv zeta.
  destruct (MAX_FILES <? List.length (URLGroup.files g ++ fs)) eqn:Hlt;
    split; cbn [URLGroup.withFiles URLGroup.files URLGroup.urls];
    try assumption.
  - apply firstn_le_length.
  - apply Nat.ltb_ge in Hlt. exact Hlt.
Qed.

Lemma handleRemoveFile_caps a n l :
  Forall withinCaps l -> Forall withinCaps (handleRemoveFile a n l).
Proof.
  apply withinCaps_map. intros g [Hu Hf].
  destruct (URLGroup.id g =? a)%string; split; simpl; try assumption.
  eapply Nat.le_trans; [apply length_filter_le | assumption].
Qed.

Variable API_KEY : option string.

Lemma urlGroups_commit now prev next :
  App.urlGroups (commit API_KEY now prev next) = App.urlGroups next.
Proof. unfold commit. destruct (welcomeDepsChanged prev next); reflexivity. Qed.

Lemma activeUrlGroupId_commit now prev next :
  App.activeUrlGroupId (commit API_KEY now prev next)
  = App.activeUrlGroupId next.
Proof. unfold commit. destruct (welcomeDepsChanged prev next); reflexivity. Qed.

Lemma activeGroup_commit now prev next :
  App.activeGroup (commit API_KEY now prev next) = App.activeGroup next.
Proof.
  unfold App.activeGroup.
  now rewrite urlGroups_commit, activeUrlGroupId_commit.
Qed.

Create HintDb caps.
#[local] Hint Resolve handleAddUrl_caps handleRemoveUrl_caps
  handleAddFiles_caps handleRemoveFile_caps : caps.

Lemma handle_caps a st :
  Forall withinCaps (App.urlGroups st) ->
  Forall withinCaps (App.urlGroups (handle a st)).
Proof. intros H. destruct a; simpl; auto with caps. Qed.

Lemma dispatch_caps ev st :
  Forall withinCaps (App.urlGroups st) ->
  Forall withinCaps (App.urlGroups (dispatch API_KEY ev st)).
Proof.
  intros H. unfold dispatch. rewrite urlGroups_commit.
  now apply handle_caps.
Qed.

Lemma run_caps evs st :
  Forall withinCaps (App.urlGroups st) ->
  Forall withinCaps (App.urlGroups (run API_KEY evs st)).
Proof.
  revert st. induction evs as [|ev evs IH]; intros st H; simpl.
  - exact H.
  - apply IH. now apply dispatch_caps.
Qed.

(** The seed store is within the caps, so every store the callbacks
    can reach is. *)
Lemma caps_hold_from_seed evs :
  Forall withinCaps (App.urlGroups (run API_KEY evs App.initial)).
Proof.
  apply run_caps. apply withinCapsb_correct. reflexivity.
Qed.

(** The active group after [onAddUrl]. *)
Lemma activeGroup_addUrl url st :
  App.activeGroup (handle (OnAddUrl url) st)
  = option_map
      (fun group =>
         if (List.length (URLGroup.urls group) <? MAX_URLS)
            && negb (existsb (String.eqb url) (URLGroup.urls group))
         then URLGroup.withUrls group (URLGroup.urls group ++ [url])
         else group)
      (App.activeGroup st).
Proof.
  unfold App.activeGroup, handle, handleAddUrl; simpl.
  rewrite find_map_same_id.
  - destruct (find _ (App.urlGroups st)) as [g|] eqn:Hf; simpl; [|reflexivity].
    apply find_some in Hf. destruct Hf as [_ Hid]. now rewrite Hid.
  - intros g. destruct (URLGroup.id g =? _)%string; [|reflexivity].
    destruct (_ && _); reflexivity.
Qed.

(** The active group after [onAddFiles]. *)
Lemma activeGroup_addFiles fs st :
  App.activeGroup (handle (OnAddFiles fs) st)
  = option_map
      (fun group =>
         URLGroup.withFiles group
           (firstn MAX_FILES (URLGroup.files group ++ fs)))
      (App.activeGroup st).
Proof.
  unfold App.activeGroup, handle, handleAddFiles.
  cbn [App.setUrlGroups App.urlGroups App.activeUrlGroupId].
  rewrite find_map_same_id.
  - destruct (find _ (App.urlGroups st)) as [g|] eqn:Hf;
      cbn [option_map]; [|reflexivity].
    apply find_some in Hf. destruct Hf as [_ Hid]. rewrite Hid.
    cbv zeta.
    destruct (MAX_FILES <? List.length (URLGroup.files g ++ fs)) eqn:Hlt;
      [reflexivity|].
    apply Nat.ltb_ge in Hlt. now rewrite firstn_all2.
  - intros g. destruct (URLGroup.id g =? _)%string; [|reflexivity].
    cbv zeta. destruct (_ <? _); reflexivity.
Qed.

End StoreFacts.

Section TrimFacts.

Local Open Scope string_scope.

Lemma allChars_append cls (a b : string) :
  allChars cls (a ++ b) = allChars cls a && allChars cls b.
Proof.
  induction a as [|c a IH]; simpl; [reflexivity|].
  now rewrite IH, andb_assoc.
Qed.

Lemma take_append (a b : string) : take (String.length a) (a ++ b) = a.
Proof. induction a; simpl; [destruct b|]; congruence. Qed.

Lemma take_length_diff (a b : string) :
  take (String.length (a ++ b) - String.length b) (a ++ b) = a.
Proof.
  rewrite length_append.
  replace (String.length a + String.length b - String.length b)
    with (String.length a) by lia.
  apply take_append.
Qed.

Lemma append_inv_tail (a b c : string) : a ++ c = b ++ c -> a = b.
Proof.
  revert b; induction a as [|x a IH]; intros [|y b] H; simpl in H.
  - reflexivity.
  - apply (f_equal String.length) in H. simpl in H.
    rewrite length_append in H. lia.
  - apply (f_equal String.length) in H. simpl in H.
    rewrite length_append in H. lia.
  - inversion H. f_equal. now apply IH.
Qed.

Lemma trimStart_decompose (s : string) :
  exists w, s = w ++ trimStart s /\ allChars isWhiteSpace w = true.
Proof.
  induction s as [|c s [w [Hs Hw]]]; simpl.
  - now exists EmptyString.
  - destruct (isWhiteSpace c) eqn:Hc.
    + exists (String c w). simpl. rewrite Hc, Hw. now rewrite <- Hs.
    + now exists EmptyString.
Qed.

Lemma trimStart_head (s : string) c u :
  trimStart s = String c u -> isWhiteSpace c = false.
Proof.
  induction s as [|d s IH]; simpl; [discriminate|].
  destruct (isWhiteSpace d) eqn:Hd; [assumption|].
  intros H. inversion H; subst. assumption.
Qed.

Lemma trimStart_nonws c u :
  isWhiteSpace c = false -> trimStart (String c u) = String c u.
Proof. intros H. simpl. now rewrite H. Qed.

Lemma trimEnd_decompose (s : string) :
  exists w, s = trimEnd s ++ w /\ allChars isWhiteSpace w = true.
Proof.
  induction s as [|c s [w [Hs Hw]]]; simpl.
  - now exists EmptyString.
  - destruct (trimEnd s) as [|d t] eqn:Ht.
    + simpl in Hs. subst w. destruct (isWhiteSpace c) eqn:Hc.
      * exists (String c s). simpl. now rewrite Hc, Hw.
      * exists s. simpl. auto.
    + exists w. simpl in *. now rewrite <- Hs.
Qed.

Lemma trimEnd_head (s : string) c :
  (exists u, trimEnd (String c s) = String c u)
  \/ trimEnd (String c s) = EmptyString.
Proof.
  simpl. destruct (trimEnd s); [destruct (isWhiteSpace c)|]; eauto.
Qed.

(** No non-empty suffix of a right-trimmed string is blank. *)
Lemma trimEnd_suffix (s a1 a2 : string) :
  trimEnd s = a1 ++ a2 -> a2 <> EmptyString ->
  allChars isWhiteSpace a2 = false.
Proof.
  revert a1 a2. induction s as [|c s IH]; intros a1 a2 H Hne; simpl in H.
  - destruct a1; [simpl in H; congruence | discriminate].
  - destruct (trimEnd s) as [|d t] eqn:Ht.
    + destruct (isWhiteSpace c) eqn:Hc.
      * destruct a1; [simpl in H; congruence | discriminate].
      * destruct a1 as [|x a1]; simpl in H.
        -- subst a2. simpl. now rewrite Hc.
        -- inversion H as [[Hx Hr]].
           destruct a1; simpl in Hr; [congruence | discriminate].
    + destruct a1 as [|x a1]; simpl in H.
      * subst a2.
        change (isWhiteSpace c && allChars isWhiteSpace (String d t)
                = false).
        rewrite (IH EmptyString (String d t) eq_refl).
        -- apply andb_false_r.
        -- discriminate.
      * inversion H as [[Hx Hr]]. apply (IH a1 a2); auto.
Qed.

Lemma trimEnd_idem (s : string) : trimEnd (trimEnd s) = trimEnd s.
Proof.
  induction s as [|c s IH]; simpl; [reflexivity|].
  destruct (trimEnd s) as [|d t] eqn:Ht.
  - destruct (isWhiteSpace c) eqn:Hc; simpl; [reflexivity|].
    now rewrite Hc.
  - cbn [trimEnd]. cbn [trimEnd] in IH. rewrite IH. reflexivity.
Qed.

(** Appending to the left of a string that does not trim to nothing
    leaves the trimming to the right part. *)
Lemma trimEnd_append (a b : string) :
  trimEnd b <> EmptyString -> trimEnd (a ++ b) = a ++ trimEnd b.
Proof.
  intros Hb. induction a as [|c a IH]; simpl; [reflexivity|].
  rewrite IH. destruct (a ++ trimEnd b) eqn:E; [|reflexivity].
  destruct a; simpl in E; [congruence | discriminate].
Qed.

Lemma trim_head (s : string) c u :
  trim s = String c u -> isWhiteSpace c = false.
Proof.
  unfold trim. destruct (trimStart s) as [|d t] eqn:Ht; [discriminate|].
  intros H. destruct (trimEnd_head t d) as [[u' E]|E].
  - rewrite E in H. inversion H; subst.
    eapply trimStart_head; eassumption.
  - rewrite E in H. discriminate.
Qed.

Lemma trim_decompose (s : string) :
  exists w1 w2, s = w1 ++ trim s ++ w2
                /\ allChars isWhiteSpace w1 = true
                /\ allChars isWhiteSpace w2 = true.
Proof.
  destruct (trimStart_decompose s) as [w1 [H1 Hw1]].
  destruct (trimEnd_decompose (trimStart s)) as [w2 [H2 Hw2]].
  exists w1, w2. unfold trim. rewrite <- H2. auto.
Qed.

Lemma trim_idem (s : string) : trim (trim s) = trim s.
Proof.
  destruct (trim s) as [|c u] eqn:E; [reflexivity|].
  pose proof (trim_head _ _ _ E) as Hc.
  unfold trim at 1. rewrite trimStart_nonws by assumption.
  rewrite <- E. unfold trim. apply trimEnd_idem.
Qed.

End TrimFacts.

Section RegexFacts.

Local Open Scope string_scope.

Lemma allChars_isAny (s : string) : allChars isAny s = true.
Proof. induction s; simpl; auto. Qed.

(** A greedy star takes the whole run when the continuation accepts
    right after it. *)
Lemma starGreedy_app cls k (a b : string) caps r :
  allChars cls a = true ->
  (forall c b', b = String c b' -> cls c = false) ->
  k b caps = Some r ->
  starGreedy cls k (a ++ b) caps = Some r.
Proof.
  intros Ha Hb Hk. induction a as [|c a IH]; simpl.
  - destruct b as [|c b']; simpl; [assumption|].
    now rewrite (Hb c b' eq_refl).
  - simpl in Ha. apply andb_true_iff in Ha. destruct Ha as [Hc Ha].
    rewrite Hc, (IH Ha). reflexivity.
Qed.

Lemma starGreedy_inv cls k (s : string) caps r :
  starGreedy cls k s caps = Some r ->
  exists a b, s = a ++ b /\ allChars cls a = true /\ k b caps = Some r.
Proof.
  induction s as [|c s IH]; simpl; intros H.
  - now exists EmptyString, EmptyString.
  - destruct (cls c) eqn:Hc.
    + destruct (starGreedy cls k s caps) as [r'|] eqn:Hs.
      * inversion H; subst r'.
        destruct (IH eq_refl) as [a [b [-> [Ha Hk]]]].
        exists (String c a), b. simpl. now rewrite Hc, Ha.
      * now exists EmptyString, (String c s).
    + now exists EmptyString, (String c s).
Qed.

(** A lazy star stops at the first position the continuation accepts. *)
Lemma starLazy_app cls k (a b : string) caps r :
  allChars cls a = true ->
  (forall a1 a2, a = a1 ++ a2 -> a2 <> EmptyString ->
                 k (a2 ++ b) caps = None) ->
  k b caps = Some r ->
  starLazy cls k (a ++ b) caps = Some r.
Proof.
  intros Ha Hfail Hk. induction a as [|c a IH].
  - simpl. destruct b; simpl; now rewrite Hk.
  - simpl in Ha. apply andb_true_iff in Ha. destruct Ha as [Hc Ha].
    assert (H0 : k (String c (a ++ b)) caps = None)
      by (apply (Hfail EmptyString (String c a) eq_refl); discriminate).
    cbn [append starLazy]. rewrite H0, Hc. apply IH; [assumption|].
    intros a1 a2 -> Hne. apply (Hfail (String c a1) a2); auto.
Qed.

Lemma scan_hit total pat pre s rest caps :
  matchSeq total pat accept s [] = Some (rest, caps) ->
  scan total pat pre s = Some (mkMatch pre rest caps).
Proof. intros H. destruct s; simpl; now rewrite H. Qed.

(** With [^] in front, only the start of the subject can match. *)
Lemma scan_anchored_miss total pat pre s :
  String.length s < total ->
  scan total (AssertStart :: pat) pre s = None.
Proof.
  revert pre. induction s as [|c s IH]; intros pre Hlt.
  - cbn [scan matchSeq matchNode].
    destruct (Nat.eqb_spec (String.length EmptyString) total);
      [lia | reflexivity].
  - cbn [scan matchSeq matchNode].
    destruct (Nat.eqb_spec (String.length (String c s)) total); [lia|].
    apply IH. simpl in Hlt. lia.
Qed.

Lemma exec_anchored_miss pat s :
  matchSeq (String.length s) pat accept s [] = None ->
  exec (AssertStart :: pat) s = None.
Proof.
  intros H. unfold exec. destruct s as [|c s].
  - cbn [scan matchSeq matchNode]. now rewrite Nat.eqb_refl, H.
  - cbn [scan matchSeq matchNode]. rewrite Nat.eqb_refl, H.
    apply scan_anchored_miss. simpl. lia.
Qed.

(** A literal prefix of a pattern must be a prefix of the subject. *)
Lemma matchSeq_literal_miss total p pat k s caps :
  startsWith s p = false ->
  matchSeq total (literal p ++ pat) k s caps = None.
Proof.
  revert s. induction p as [|b p IH]; intros s H; [discriminate|].
  destruct s as [|a s]; cbn [literal app matchSeq matchNode];
    [reflexivity|].
  simpl in H. destruct (a =? b)%char; [|reflexivity].
  apply IH. exact H.
Qed.

(** A pattern that starts with a character absent from the subject
    matches nowhere. *)
Lemma scan_first_char_miss total c pat pre s :
  includes s (String c EmptyString) = false ->
  scan total (Char c :: pat) pre s = None.
Proof.
  revert pre. induction s as [|d s IH]; intros pre H; [reflexivity|].
  cbn [scan matchSeq matchNode].
  cbn [includes startsWith] in H. apply orb_false_iff in H.
  destruct H as [Hd Hs]. rewrite andb_true_r in Hd. rewrite Hd.
  now apply IH.
Qed.

Lemma removeFirst_bracket_id (s : string) :
  includes s "[" = false -> removeFirst bracketTagRegex s = s.
Proof.
  intros H. unfold removeFirst, exec, bracketTagRegex.
  now rewrite scan_first_char_miss.
Qed.

Lemma removeFirst_prefix_id (s : string) :
  startsWith s "GoogleGenAIError:" = false ->
  removeFirst errorPrefixRegex s = s.
Proof.
  intros H. unfold removeFirst, errorPrefixRegex.
  rewrite exec_anchored_miss; [reflexivity|].
  now apply matchSeq_literal_miss.
Qed.

End RegexFacts.

Section FenceFacts.

Local Open Scope string_scope.

Local Abbreviation closePat :=
  [ Star true isWhiteSpace;
    Char BACKTICK; Char BACKTICK; Char BACKTICK; AssertEnd ].
Local Abbreviation tailPat := (Opt (Char LF) :: closePat).
Local Abbreviation bodyPat :=
  (Star true isWhiteSpace :: Opt (Char LF)
     :: Group 2 (Star false isAny) :: tailPat).

Lemma eqb_succ_false (n : nat) : (n =? S n)%nat = false.
Proof. apply Nat.eqb_neq. lia. Qed.

(** Blanks and the closing fence, up to the end of the subject. *)
Lemma close_ok total w caps :
  allChars isWhiteSpace w = true ->
  matchSeq total closePat accept (w ++ "```") caps
  = Some (EmptyString, caps).
Proof.
  intros Hw. cbn [matchSeq matchNode]. apply starGreedy_app.
  - exact Hw.
  - intros c b' E. inversion E. reflexivity.
  - reflexivity.
Qed.

Lemma close_inv total s caps r :
  matchSeq total closePat accept s caps = Some r ->
  exists w, allChars isWhiteSpace w = true /\ s = w ++ "```".
Proof.
  cbn [matchSeq matchNode]. intros H.
  apply starGreedy_inv in H. destruct H as [a [b [-> [Ha Hk]]]].
  exists a. split; [exact Ha|]. f_equal.
  destruct b as [|c1 b]; [discriminate|].
  destruct (Ascii.eqb_spec c1 BACKTICK); [subst c1 | discriminate].
  destruct b as [|c2 b]; [discriminate|].
  destruct (Ascii.eqb_spec c2 BACKTICK); [subst c2 | discriminate].
  destruct b as [|c3 b]; [discriminate|].
  destruct (Ascii.eqb_spec c3 BACKTICK); [subst c3 | discriminate].
  destruct b; [reflexivity | discriminate].
Qed.

Lemma tail_ok total w caps :
  allChars isWhiteSpace w = true ->
  matchSeq total tailPat accept (w ++ "```") caps
  = Some (EmptyString, caps).
Proof.
  intros Hw.
  change (matchSeq total tailPat accept (w ++ "```") caps)
    with (matchNode total (Opt (Char LF))
            (matchSeq total closePat accept) (w ++ "```") caps).
  cbn [matchNode]. destruct w as [|c w].
  - cbn [append]. cbn [Ascii.eqb Bool.eqb BACKTICK LF].
    now apply (close_ok total EmptyString).
  - cbn [append String.length]. simpl in Hw.
    apply andb_true_iff in Hw. destruct Hw as [Hc Hw].
    destruct (c =? LF)%char.
    + rewrite eqb_succ_false. now rewrite close_ok.
    + apply (close_ok total (String c w)). simpl. now rewrite Hc.
Qed.

Lemma tail_inv total s caps r :
  matchSeq total tailPat accept s caps = Some r ->
  exists w, allChars isWhiteSpace w = true /\ s = w ++ "```".
Proof.
  change (matchSeq total tailPat accept s caps)
    with (matchNode total (Opt (Char LF))
            (matchSeq total closePat accept) s caps).
  cbn [matchNode]. intros H.
  destruct s as [|c s].
  - apply close_inv in H. exact H.
  - destruct (Ascii.eqb_spec c LF) as [->|Hne].
    + cbn [String.length] in H. rewrite eqb_succ_false in H.
      destruct (matchSeq total closePat accept s caps) eqn:E.
      * apply close_inv in E. destruct E as [w [Hw ->]].
        exists (String LF w). split; [simpl; now rewrite Hw | reflexivity].
      * apply close_inv in H. exact H.
    + apply close_inv in H. exact H.
Qed.

Lemma head_not_LF c : isWhiteSpace c = false -> (c =? LF)%char = false.
Proof.
  intros H. destruct (Ascii.eqb_spec c LF) as [->|]; [discriminate H | reflexivity].
Qed.

Lemma capture_setCapture i v caps : capture i (setCapture i v caps) = Some v.
Proof. unfold setCapture. cbn [capture]. now rewrite Nat.eqb_refl. Qed.

(** From the blanks after the language tag to the end: group 2 is the
    body without its surrounding blanks. *)
Lemma fence_body total body caps :
  trim body <> EmptyString ->
  matchSeq total bodyPat accept (body ++ "```") caps
  = Some (EmptyString, setCapture 2 (trim body) caps).
Proof.
  intros Hne.
  destruct (trim_decompose body) as [w1 [w2 [Hb [Hw1 Hw2]]]].
  destruct (trim body) as [|c core] eqn:Ht; [congruence|].
  pose proof (trim_head _ _ _ Ht) as Hc.
  assert (Hsplit : body ++ "```" = w1 ++ String c core ++ w2 ++ "```").
  { rewrite Hb at 1. now rewrite !append_assoc. }
  rewrite Hsplit.
  change (matchSeq total bodyPat accept) with
    (matchNode total (Star true isWhiteSpace)
       (matchSeq total (Opt (Char LF) :: Group 2 (Star false isAny)
                          :: tailPat) accept)).
  cbn [matchNode]. apply starGreedy_app.
  - exact Hw1.
  - intros c' b' E. cbn [append] in E. inversion E. now subst.
  - change (matchSeq total (Opt (Char LF) :: Group 2 (Star false isAny)
                              :: tailPat) accept)
      with (matchNode total (Opt (Char LF))
              (matchNode total (Group 2 (Star false isAny))
                 (matchSeq total tailPat accept))).
    cbn [matchNode append]. rewrite (head_not_LF _ Hc).
    change (String c (core ++ w2 ++ "```"))
      with (String c core ++ w2 ++ "```").
    apply starLazy_app.
    + apply allChars_isAny.
    + intros a1 a2 Ha Hne2.
      destruct (matchSeq total tailPat accept (a2 ++ w2 ++ "```")
                  (setCapture 2
                     (take (String.length (String c core ++ w2 ++ "```")
                            - String.length (a2 ++ w2 ++ "```"))
                           (String c core ++ w2 ++ "```")) caps))
        as [r|] eqn:E; [|reflexivity].
      exfalso. apply tail_inv in E. destruct E as [w [Hw Hw']].
      rewrite <- append_assoc in Hw'. apply append_inv_tail in Hw'.
      subst w. rewrite allChars_append in Hw.
      apply andb_true_iff in Hw. destruct Hw as [Hw _].
      assert (Hs : allChars isWhiteSpace a2 = false).
      { apply (trimEnd_suffix (trimStart body) a1 a2); [|assumption].
        fold (trim body). now rewrite Ht. }
      congruence.
    + rewrite take_length_diff. now apply tail_ok.
Qed.

(** The whole pattern after the opening fence: the language tag is the
    run of word characters, the body starts where that run ends. *)
Lemma fence_match total lang body :
  allChars isWordChar lang = true ->
  (forall c b, body = String c b -> isWordChar c = false) ->
  trim body <> EmptyString ->
  exists caps,
    matchSeq total
      (Opt (Group 1 (Star true isWordChar)) :: bodyPat) accept
      (lang ++ body ++ "```") []
    = Some (EmptyString, caps)
    /\ capture 2 caps = Some (trim body).
Proof.
  intros Hl Hhead Hne.
  assert (Hhead' : forall c b, body ++ "```" = String c b ->
                               isWordChar c = false).
  { intros c b E. destruct body as [|c' body'].
    - cbn [append] in E. inversion E. reflexivity.
    - cbn [append] in E. inversion E; subst. now apply (Hhead c body'). }
  change (matchSeq total
            (Opt (Group 1 (Star true isWordChar)) :: bodyPat) accept)
    with (matchNode total (Opt (Group 1 (Star true isWordChar)))
            (matchSeq total bodyPat accept)).
  cbn [matchNode]. destruct lang as [|c lang].
  - cbn [append].
    exists (setCapture 2 (trim body) []). split; [|apply capture_setCapture].
    destruct (body ++ "```") as [|c b] eqn:E.
    + destruct body; discriminate E.
    + cbn [starGreedy]. rewrite (Hhead' c b eq_refl), Nat.eqb_refl.
      rewrite <- E. now apply fence_body.
  - exists (setCapture 2 (trim body)
              (setCapture 1 (String c lang) [])). split.
    + rewrite (starGreedy_app isWordChar _ (String c lang)
                 (body ++ "```") []
                 (EmptyString,
                  setCapture 2 (trim body)
                    (setCapture 1 (String c lang) []))).
      * reflexivity.
      * exact Hl.
      * exact Hhead'.
      * rewrite take_length_diff.
        destruct (Nat.eqb_spec
                    (String.length (body ++ "```"))
                    (String.length (String c lang ++ body ++ "```")))
          as [E|_].
        -- rewrite (length_append (String c lang)) in E. simpl in E. lia.
        -- now apply fence_body.
    + apply capture_setCapture.
Qed.

Lemma trimEnd_fence (a : string) : trimEnd (a ++ "```") = a ++ "```".
Proof. apply trimEnd_append. discriminate. Qed.

(** The fence pattern on a fenced block. *)
Lemma exec_fence lang body :
  allChars isWordChar lang = true ->
  (forall c b, body = String c b -> isWordChar c = false) ->
  trim body <> EmptyString ->
  exists m,
    exec fenceRegex ("```" ++ lang ++ body ++ "```") = Some m
    /\ capture 2 (groups m) = Some (trim body).
Proof.
  intros Hl Hhead Hne.
  destruct (fence_match
              (String.length ("```" ++ lang ++ body ++ "```"))
              lang body Hl Hhead Hne) as [caps [Hm Hc]].
  exists (mkMatch EmptyString EmptyString caps). split; [|exact Hc].
  unfold exec. apply scan_hit. unfold fenceRegex.
  cbn [matchSeq]. cbn [matchNode]. rewrite Nat.eqb_refl.
  cbn [append matchNode Ascii.eqb Bool.eqb BACKTICK].
  exact Hm.
Qed.

End FenceFacts.

Section SuggestionFacts.

Local Open Scope string_scope.

Lemma trim_fenced (x : string) :
  trim ("```" ++ x ++ "```") = "```" ++ x ++ "```".
Proof.
  unfold trim. cbn [append]. rewrite trimStart_nonws by reflexivity.
  change (String "`" (String "`" (String "`" (x ++ "```"))))
    with (("```" ++ x) ++ "```").
  apply trimEnd_fence.
Qed.

(** A fenced block is parsed without its fence, its language tag and
    the blanks around its body. *)
Lemma jsonSource_fenced lang body :
  allChars isWordChar lang = true ->
  (forall c b, body = String c b -> isWordChar c = false) ->
  trim body <> EmptyString ->
  jsonSource ("```" ++ lang ++ body ++ "```") = trim body.
Proof.
  intros Hl Hhead Hne. unfold jsonSource.
  assert (Ht : trim ("```" ++ lang ++ body ++ "```")
               = "```" ++ lang ++ body ++ "```").
  { replace (lang ++ body ++ "```") with ((lang ++ body) ++ "```")
      by now rewrite !append_assoc.
    apply trim_fenced. }
  rewrite Ht.
  destruct (exec_fence lang body Hl Hhead Hne) as [m [Hm Hc]].
  rewrite Hm, Hc.
  destruct (trim body) eqn:E; [congruence|].
  cbn [isEmpty]. rewrite <- E. apply trim_idem.
Qed.

(** A text that does not open with a fence is parsed as it is. *)
Lemma jsonSource_plain text :
  startsWith (trim text) "```" = false ->
  jsonSource text = trim text.
Proof.
  intros H. unfold jsonSource.
  change fenceRegex with
    (AssertStart
       :: literal "```"
       ++ [ Opt (Group 1 (Star true isWordChar));
            Star true isWhiteSpace;
            Opt (Char LF);
            Group 2 (Star false isAny);
            Opt (Char LF);
            Star true isWhiteSpace;
            Char BACKTICK; Char BACKTICK; Char BACKTICK; AssertEnd ]).
  rewrite exec_anchored_miss; [reflexivity|].
  now apply matchSeq_literal_miss.
Qed.

Lemma In_filterStrings (items : list JsValue) (s : string) :
  In s (filterStrings items) <-> In (JString s) items.
Proof.
  induction items as [|v items IH]; simpl; [tauto|].
  destruct v; simpl; rewrite IH; split;
    try (intros [H|H]; [discriminate | now auto]); auto.
  - intros [->|H]; auto.
  - intros [H|H]; [inversion H; auto | auto].
Qed.

End SuggestionFacts.

Section NormalizationFacts.

Local Open Scope string_scope.

(** The conditional chain of [formatGeminiError] is the first-match
    lookup in [KEYWORD_SETS]. *)
Lemma formatGeminiError_classify (error : Thrown) :
  formatGeminiError error = categoryText (classify error) error.
Proof.
  destruct error as [msg|]; [|reflexivity].
  unfold formatGeminiError, classify, KEYWORD_SETS.
  cbn [firstMatch matchesSet existsb]. cbv zeta.
  rewrite !orb_false_r, !orb_assoc.
  repeat match goal with
         | |- (if ?b then _ else _) = _ => destruct b; [reflexivity|]
         end.
  reflexivity.
Qed.

(** First match wins: the category of a table lookup is that of the
    first set with a keyword in the message, and the fallback exactly
    when no set has one. *)
Lemma firstMatch_spec lowerMsg table c :
  ~ In GenericFallback (map snd table) ->
  (firstMatch lowerMsg table = c <->
   (exists before keywords after,
       table = (before ++ (keywords, c) :: after)%list
       /\ matchesSet lowerMsg keywords = true
       /\ Forall (fun p => matchesSet lowerMsg (fst p) = false) before)
   \/ (c = GenericFallback
       /\ Forall (fun p => matchesSet lowerMsg (fst p) = false) table)).
Proof.
  revert c. induction table as [|[kws c0] table IH]; intros c Hno.
  - simpl. split.
    + intros <-. right. auto.
    + intros [[before [k [after [E _]]]] | [-> _]]; [|reflexivity].
      destruct before; discriminate.
  - cbn [firstMatch]. simpl in Hno.
    destruct (matchesSet lowerMsg kws) eqn:Hm.
    + split.
      * intros <-. left. exists [], kws, table. auto.
      * intros [[before [k [after [E [Hk Hb]]]]] | [-> Hall]].
        -- destruct before as [|p before]; simpl in E.
           ++ now inversion E.
           ++ inversion E; subst p. inversion Hb; subst.
              simpl in *. congruence.
        -- inversion Hall; subst. simpl in *. congruence.
    + rewrite IH by tauto. split.
      * intros [[before [k [after [E [Hk Hb]]]]] | [-> Hall]].
        -- left. exists ((kws, c0) :: before), k, after.
           subst table. repeat split; auto.
        -- right. split; auto.
      * intros [[before [k [after [E [Hk Hb]]]]] | [-> Hall]].
        -- destruct before as [|p before]; simpl in E.
           ++ inversion E; subst. congruence.
           ++ inversion E; subst p table. inversion Hb; subst.
              left. exists before, k, after. auto.
        -- right. inversion Hall; subst. auto.
Qed.

(** Keyword matching ignores case and looks for a substring. *)
Lemma matchesSet_spec msg keywords :
  matchesSet (toLowerCase msg) keywords = true <->
  exists kw pre s post,
    In kw keywords /\ msg = pre ++ s ++ post /\ toLowerCase s = kw.
Proof.
  unfold matchesSet. rewrite existsb_exists. split.
  - intros [kw [Hin H]]. apply includes_toLowerCase_iff in H.
    destruct H as [pre [s [post [E Hs]]]]. now exists kw, pre, s, post.
  - intros [kw [pre [s [post [Hin [E Hs]]]]]]. exists kw. split; [assumption|].
    apply includes_toLowerCase_iff. now exists pre, s, post.
Qed.

End NormalizationFacts.

(* ================================================================== *)
(** * Part III.  The properties of the specification                    *)
(* ================================================================== *)

Section StoreProperties.

Local Open Scope list_scope.
Local Open Scope nat_scope.

Variable API_KEY : option string.

(** C1.  From a store whose groups are all within the caps (at most 20
    URLs and 50 files each), every sequence of store callbacks (adds,
    removals, group switches) leaves every group within the caps.  An
    [onAddUrl] on an active group that already holds 20 URLs leaves that
    group as it was, and after an [onAddFiles] the active group holds the
    first 50 files of its old list followed by the new ones. *)
Theorem caps_hold_after_adds (st : App.State) :
  Forall withinCaps (App.urlGroups st) ->
  (forall evs, Forall withinCaps (App.urlGroups (run API_KEY evs st)))
  /\ (forall now url,
         MAX_URLS <= List.length (App.currentUrlsForChat st) ->
         App.activeGroup (dispatch API_KEY (now, OnAddUrl url) st)
         = App.activeGroup st)
  /\ (forall now fs,
         option_map URLGroup.files
           (App.activeGroup (dispatch API_KEY (now, OnAddFiles fs) st))
         = option_map
             (fun g => firstn MAX_FILES (URLGroup.files g ++ fs))
             (App.activeGroup st)).
Proof.
  intros Hcaps. split; [|split].
  - intros evs. now apply run_caps.
  - intros now url Hfull. unfold dispatch. rewrite activeGroup_commit.
    cbn [fst snd]. rewrite activeGroup_addUrl.
    unfold App.currentUrlsForChat in Hfull.
    destruct (App.activeGroup st) as [g|]; [|reflexivity].
    cbn [option_map]. apply Nat.ltb_ge in Hfull. now rewrite Hfull.
  - intros now fs. unfold dispatch. rewrite activeGroup_commit.
    cbn [fst snd]. rewrite activeGroup_addFiles.
    now destruct (App.activeGroup st).
Qed.

(** C3.  When the URL is already in the active group, [onAddUrl] leaves
    the active group (its URLs and its files) as it was; and in every
    state a second [onAddUrl] of the same URL changes no group. *)
Theorem addUrl_present_is_noop :
  (forall st now url,
      In url (App.currentUrlsForChat st) ->
      App.activeGroup (dispatch API_KEY (now, OnAddUrl url) st)
      = App.activeGroup st)
  /\ (forall st now now' url,
         App.urlGroups
           (dispatch API_KEY (now', OnAddUrl url)
              (dispatch API_KEY (now, OnAddUrl url) st))
         = App.urlGroups (dispatch API_KEY (now, OnAddUrl url) st)).
Proof.
  split.
  - intros st now url Hin. unfold dispatch. rewrite activeGroup_commit.
    cbn [fst snd]. rewrite activeGroup_addUrl.
    unfold App.currentUrlsForChat in Hin.
    destruct (App.activeGroup st) as [g|]; [|reflexivity].
    cbn [option_map]. apply existsb_eqb_In in Hin. rewrite Hin.
    now rewrite andb_false_r.
  - intros st now now' url. unfold dispatch. rewrite !urlGroups_commit.
    cbn [fst snd]. unfold handle.
    cbn [App.setUrlGroups App.urlGroups App.activeUrlGroupId].
    rewrite urlGroups_commit, activeUrlGroupId_commit.
    cbn [App.setUrlGroups App.urlGroups App.activeUrlGroupId].
    unfold handleAddUrl. rewrite map_map. apply map_ext. intros g.
    destruct (URLGroup.id g =? App.activeUrlGroupId st)%string eqn:Hid;
      [|now rewrite Hid].
    destruct (List.length (URLGroup.urls g) <? MAX_URLS) eqn:Hlt;
      cbn [andb]; [|now rewrite Hid, Hlt].
    destruct (existsb (String.eqb url) (URLGroup.urls g)) eqn:Hex;
      cbn [negb]; [now rewrite Hid, Hlt, Hex|].
    cbn [URLGroup.withUrls URLGroup.id URLGroup.urls]. rewrite Hid.
    assert (Hin : existsb (String.eqb url) (URLGroup.urls g ++ [url]) = true).
    { apply existsb_eqb_In, in_or_app. right. now left. }
    rewrite Hin. now rewrite andb_false_r.
Qed.

(** The sidebar's own guard: at capacity, or for a URL the group already
    has, [handleAddUrl] of the sidebar invokes no callback at all. *)
Lemma sidebar_addUrl_guard (isValidUrl : string -> bool)
      (props : KnowledgeBaseManager.Props)
      (kb : KnowledgeBaseManager.State) :
  KnowledgeBaseManager.maxUrls props
  <= List.length (KnowledgeBaseManager.urls props)
  \/ In (KnowledgeBaseManager.currentUrlInput kb)
        (KnowledgeBaseManager.urls props) ->
  snd (KnowledgeBaseManager.handleAddUrl isValidUrl props kb) = None.
Proof.
  intros H. unfold KnowledgeBaseManager.handleAddUrl.
  destruct (isEmpty (trim (KnowledgeBaseManager.currentUrlInput kb)));
    [reflexivity|].
  destruct (isValidUrl (KnowledgeBaseManager.currentUrlInput kb));
    [|reflexivity].
  cbn [negb].
  destruct (KnowledgeBaseManager.maxUrls props
            <=? List.length (KnowledgeBaseManager.urls props)) eqn:Hcap;
    [reflexivity|].
  destruct H as [H|H].
  - apply Nat.leb_le in H. congruence.
  - apply existsb_eqb_In in H. now rewrite H.
Qed.

(** C2.  A file selection adds to the active group only selected files
    whose names the group does not already hold: the sidebar's
    [handleFileChange] filters them before it calls [onAddFiles].  The
    group's existing files are all kept, in order, in front; of the new
    files, the ones that would take the list past 50 are dropped from
    the end. *)
Theorem addFiles_dedup_and_truncate
        (now : N) (newFiles : list File.t) (st : App.State)
        (g : URLGroup.t) :
  App.activeGroup st = Some g ->
  List.length (URLGroup.files g) <= MAX_FILES ->
  let fresh :=
    filter (fun f =>
              negb (existsb (String.eqb (File.name f))
                            (map File.name (URLGroup.files g))))
           newFiles in
  let added := firstn (MAX_FILES - List.length (URLGroup.files g)) fresh in
  App.currentFilesForChat
    (KnowledgeBaseManager.fileChange API_KEY now newFiles st)
  = URLGroup.files g ++ added
  /\ Forall (fun f => In f newFiles
                      /\ ~ In (File.name f)
                             (map File.name (URLGroup.files g))) added
  /\ (List.length (URLGroup.files g ++ fresh) <= MAX_FILES ->
      added = fresh)
  /\ (MAX_FILES < List.length (URLGroup.files g ++ fresh) ->
      List.length (URLGroup.files g ++ added) = MAX_FILES).
Proof.
  intros Hact Hcap fresh added.
  assert (Hfirst : firstn MAX_FILES (URLGroup.files g ++ fresh)
                   = URLGroup.files g ++ added).
  { rewrite firstn_app. now rewrite firstn_all2 by assumption. }
  repeat split.
  - unfold KnowledgeBaseManager.fileChange,
      KnowledgeBaseManager.handleFileChange.
    cbn [KnowledgeBaseManager.propsOf KnowledgeBaseManager.files].
    assert (Hcur : App.currentFilesForChat st = URLGroup.files g)
      by (unfold App.currentFilesForChat; now rewrite Hact).
    rewrite Hcur. fold fresh.
    destruct (0 <? List.length newFiles) eqn:Hnew; cbn [snd].
    + destruct (0 <? List.length fresh) eqn:Hfresh.
      * unfold App.currentFilesForChat, dispatch.
        rewrite activeGroup_commit. cbn [fst snd].
        rewrite activeGroup_addFiles, Hact. cbn [option_map].
        cbn [URLGroup.withFiles URLGroup.files]. exact Hfirst.
      * apply Nat.ltb_ge in Hfresh.
        assert (E : fresh = []) by (destruct fresh; [reflexivity | simpl in Hfresh; lia]).
        subst added. rewrite E, firstn_nil, app_nil_r. exact Hcur.
    + apply Nat.ltb_ge in Hnew.
      assert (E : newFiles = []) by (destruct newFiles; [reflexivity | simpl in Hnew; lia]).
      subst added fresh. rewrite E. cbn [filter].
      rewrite firstn_nil, app_nil_r. exact Hcur.
  - apply Forall_forall. intros f Hin.
    assert (Hf : In f fresh).
    { subst added. clear - Hin.
      revert Hin. generalize (MAX_FILES - List.length (URLGroup.files g)).
      intros n. revert n. induction fresh as [|x l IH]; intros [|n] H;
        simpl in H; try contradiction.
      destruct H as [<-|H]; [now left | right; eauto]. }
    apply filter_In in Hf. destruct Hf as [Hn Hb]. split; [assumption|].
    apply negb_true_iff in Hb. intros Hc.
    apply existsb_eqb_In in Hc. congruence.
  - intros Hle. subst added. apply firstn_all2.
    rewrite length_app in Hle. lia.
  - intros Hgt. rewrite <- Hfirst. rewrite length_firstn. lia.
Qed.

(** C10.  Each store callback ([onAddUrl], [onRemoveUrl], [onAddFiles],
    [onRemoveFile]) resets the transcript to the single SYSTEM welcome
    message, while the active group id stays the same; a switch to
    another group resets it by the same effect. *)
Theorem store_mutation_resets_transcript (now : N) (st : App.State) :
  (forall a,
      (forall id, a <> OnSetGroupId id) ->
      App.chatMessages (dispatch API_KEY (now, a) st)
      = [welcomeMessage API_KEY now (handle a st)]
      /\ App.activeUrlGroupId (dispatch API_KEY (now, a) st)
         = App.activeUrlGroupId st)
  /\ (forall id,
         id <> App.activeUrlGroupId st ->
         App.chatMessages (dispatch API_KEY (now, OnSetGroupId id) st)
         = [welcomeMessage API_KEY now (handle (OnSetGroupId id) st)])
  /\ (forall a,
         ChatMessage.sender (welcomeMessage API_KEY now (handle a st))
         = SYSTEM).
Proof.
  assert (Hstamp : forall n, (n =? S n) = false)
    by (intros n; apply Nat.eqb_neq; lia).
  split; [|split].
  - intros a Hmut. unfold dispatch, commit, welcomeDepsChanged.
    cbn [fst snd].
    destruct a; try (exfalso; eapply Hmut; reflexivity);
      cbn [handle App.setUrlGroups App.urlGroupsStamp App.activeUrlGroupId];
      rewrite Hstamp, orb_true_r; split; reflexivity.
  - intros id Hid. unfold dispatch, commit, welcomeDepsChanged.
    cbn [fst snd handle App.setActiveUrlGroupId App.activeUrlGroupId
         App.urlGroupsStamp].
    assert (E : (App.activeUrlGroupId st =? id)%string = false)
      by (apply String.eqb_neq; congruence).
    rewrite E. reflexivity.
  - intros a. reflexivity.
Qed.

End StoreProperties.

Section GatewayProperties.

Local Open Scope string_scope.

Variable API_KEY : option string.
Variable generateContent :
  Sdk.Request -> Outcome Sdk.GenerateContentResponse.

Lemma append_nonempty_neq (s t : string) :
  t <> EmptyString -> s ++ t <> s.
Proof.
  intros Ht E. apply (f_equal String.length) in E.
  rewrite length_append in E. destruct t; [congruence | simpl in E; lia].
Qed.

Lemma includes_char_append c (a b : string) :
  includes (a ++ b) (String c EmptyString)
  = includes a (String c EmptyString) || includes b (String c EmptyString).
Proof.
  induction a as [|d a IH].
  - cbn [append includes startsWith orb]. reflexivity.
  - cbn [append includes startsWith]. rewrite IH, !andb_true_r.
    now rewrite orb_assoc.
Qed.

Lemma partsOf_app fullPrompt fileParts :
  partsOf fullPrompt fileParts
  = (fileParts ++ [Sdk.TextPart fullPrompt])%list.
Proof. unfold partsOf. now destruct fileParts. Qed.

Lemma sent_with_key prompt urls fileParts :
  truthy API_KEY = true ->
  generateContentWithContext API_KEY generateContent prompt urls fileParts
  = ([generateRequest prompt urls fileParts],
     rethrowFormatted
       (bindOutcome
          (generateContent (generateRequest prompt urls fileParts))
          readResponse)).
Proof.
  intros Hk. unfold generateContentWithContext, getAiInstance.
  now rewrite Hk.
Qed.

(** C6.  With a credential, [generate] sends exactly one request (none
    without); in it the file fragments come first and the prompt text is
    the last part; the URL-context tool is attached and the prompt is
    followed by the list of URLs exactly when [urls] is not empty. *)
Theorem generate_request_shape prompt urls fileParts :
  let sent :=
    fst (generateContentWithContext API_KEY generateContent
           prompt urls fileParts) in
  let request := generateRequest prompt urls fileParts in
  sent = (if truthy API_KEY then [request] else [])
  /\ (exists fullPrompt,
         Sdk.contents request
         = [Sdk.mkContent "user"
              (fileParts ++ [Sdk.TextPart fullPrompt])%list]
         /\ (urls = [] ->
             fullPrompt = prompt
             /\ Sdk.tools (Sdk.config request) = None)
         /\ (urls <> [] ->
             fullPrompt
             = prompt ++ nl ++ nl ++ "Relevant URLs for context:" ++ nl
                 ++ join nl urls
             /\ fullPrompt <> prompt
             /\ Sdk.tools (Sdk.config request)
                = Some [Sdk.UrlContextTool])).
Proof.
  cbv zeta. split.
  - unfold generateContentWithContext, getAiInstance.
    now destruct (truthy API_KEY).
  - exists (fullPromptOf prompt urls). split; [|split].
    + unfold generateRequest. cbn [Sdk.contents].
      now rewrite partsOf_app.
    + intros ->. split; reflexivity.
    + intros Hne. destruct urls as [|u urls']; [congruence|].
      unfold generateRequest, fullPromptOf, toolsOf.
      cbn [List.length Nat.ltb Nat.leb Sdk.config Sdk.tools].
      repeat split. apply append_nonempty_neq. discriminate.
Qed.

(** C5.  [formatGeminiError] maps a thrown value to the text of exactly
    one category: that of the first keyword set, in the fixed order,
    one of whose keywords occurs in the message when case is ignored,
    and the generic fallback when no set matches or the value is not an
    [Error]. *)
Theorem error_normalization_first_match :
  (forall error,
      formatGeminiError error = categoryText (classify error) error)
  /\ (forall msg c,
         classify (ErrorObj msg) = c <->
         (exists before keywords after,
             KEYWORD_SETS = (before ++ (keywords, c) :: after)%list
             /\ matchesSet (toLowerCase msg) keywords = true
             /\ Forall (fun p =>
                          matchesSet (toLowerCase msg) (fst p) = false)
                       before)
         \/ (c = GenericFallback
             /\ Forall (fun p =>
                          matchesSet (toLowerCase msg) (fst p) = false)
                       KEYWORD_SETS))
  /\ classify NonError = GenericFallback
  /\ (forall msg keywords,
         matchesSet (toLowerCase msg) keywords = true <->
         exists kw pre s post,
           In kw keywords /\ msg = pre ++ s ++ post
           /\ toLowerCase s = kw).
Proof.
  split; [|split; [|split]].
  - apply formatGeminiError_classify.
  - intros msg c. unfold classify. apply firstMatch_spec.
    cbn. intuition discriminate.
  - reflexivity.
  - apply matchesSet_spec.
Qed.

(** An empty text with a first candidate that did not stop normally:
    the error raised in the [try] block goes through the [catch]. *)
Lemma generate_nonstop_throws prompt urls fileParts response c0 rest :
  truthy API_KEY = true ->
  generateContent (generateRequest prompt urls fileParts)
  = Return response ->
  truthy (Sdk.text response) = false ->
  Sdk.candidates response = Some (c0 :: rest) ->
  isStop (Sdk.finishReason c0) = false ->
  generateContentWithContext API_KEY generateContent prompt urls fileParts
  = ([generateRequest prompt urls fileParts],
     Throw (ErrorObj
              (formatGeminiError
                 (ErrorObj ("Response stopped due to: "
                            ++ showFinishReason (Sdk.finishReason c0)))))).
Proof.
  intros Hk Hresp Htext Hcand Hstop.
  rewrite sent_with_key by assumption. f_equal.
  rewrite Hresp. cbn [bindOutcome]. unfold readResponse.
  rewrite Hcand, Hstop.
  assert (E : orElse (Sdk.text response) EmptyString = EmptyString).
  { unfold truthy in Htext. unfold orElse.
    destruct (Sdk.text response) as [[|c s]|]; try reflexivity.
    discriminate Htext. }
  rewrite E. reflexivity.
Qed.

(** The normalization keeps the sentence when no keyword set matches it
    and the reason has no bracket. *)
Lemma nonstop_message_verbatim (reason : string) :
  classify (ErrorObj ("Response stopped due to: " ++ reason))
  = GenericFallback ->
  includes reason "[" = false ->
  formatGeminiError (ErrorObj ("Response stopped due to: " ++ reason))
  = "Response stopped due to: " ++ reason.
Proof.
  intros Hcls Hbr.
  rewrite formatGeminiError_classify, Hcls. cbn [categoryText].
  rewrite (removeFirst_bracket_id ("Response stopped due to: " ++ reason)).
  - apply removeFirst_prefix_id. reflexivity.
  - rewrite includes_char_append, Hbr. reflexivity.
Qed.

End GatewayProperties.

Section EncoderProperties.

Local Open Scope string_scope.

Variable readAsDataURL : File.t -> option string.
Variable readAsText : File.t -> option string.

Lemma binaryMime_iff (mime : string) :
  startsWith mime "image/" || (mime =? "application/pdf")
  || startsWith mime "audio/" || startsWith mime "video/" = true
  <-> binaryMime mime.
Proof.
  unfold binaryMime.
  rewrite !orb_true_iff, !startsWith_iff, String.eqb_eq. tauto.
Qed.

Lemma binaryMime_nonempty (mime : string) :
  binaryMime mime -> mime <> EmptyString.
Proof.
  intros [[r ->] | [[r ->] | [[r ->] | ->]]]; discriminate.
Qed.

Lemma split_no_sep sep (s : string) :
  includes s (String sep EmptyString) = false -> split sep s = [s].
Proof.
  induction s as [|c s IH]; intros H; [reflexivity|].
  cbn [includes startsWith] in H. rewrite andb_true_r in H.
  apply orb_false_iff in H. destruct H as [Hc Hs].
  cbn [split]. rewrite Hc, (IH Hs). reflexivity.
Qed.

Lemma split_at_sep sep (a b : string) :
  includes a (String sep EmptyString) = false ->
  split sep (a ++ String sep b) = a :: split sep b.
Proof.
  induction a as [|c a IH]; intros H.
  - cbn [append split]. now rewrite Ascii.eqb_refl.
  - cbn [includes startsWith] in H. rewrite andb_true_r in H.
    apply orb_false_iff in H. destruct H as [Hc Hs].
    cbn [append split]. rewrite Hc, (IH Hs). reflexivity.
Qed.

(** C7.  [fileToPart] yields an inline-binary fragment, carrying the
    file's MIME type (the octet-stream fallback is for an empty type,
    which no such file has) and the base64 payload of its data URL,
    exactly for the MIME types image/..., audio/..., video/... and
    application/pdf; for any other file it yields the text fragment
    "File: <name>", "Content:", the content and a "---" line.  A read
    error rejects. *)
Theorem file_fragment_kind (file : File.t) :
  (binaryMime (File.type file) ->
   File.type file <> EmptyString
   /\ fileToPart readAsDataURL readAsText file
      = match readAsDataURL file with
        | Some result =>
            Return (Sdk.InlineDataPart
                      (if isEmpty (File.type file)
                       then "application/octet-stream"
                       else File.type file)
                      (nth_error (split "," result) 1))
        | None => Throw NonError
        end)
  /\ (~ binaryMime (File.type file) ->
      fileToPart readAsDataURL readAsText file
      = match readAsText file with
        | Some text =>
            Return (Sdk.TextPart
                      ("File: " ++ File.name file ++ nl ++ "Content:" ++ nl
                       ++ text ++ nl ++ "---" ++ nl))
        | None => Throw NonError
        end)
  /\ (forall mime payload,
         readAsDataURL file
         = Some ("data:" ++ mime ++ ";base64," ++ payload) ->
         includes mime "," = false ->
         includes payload "," = false ->
         readFileAsBase64 readAsDataURL file = Return (Some payload)).
Proof.
  split; [|split].
  - intros Hbin. split; [now apply binaryMime_nonempty|].
    apply binaryMime_iff in Hbin. unfold fileToPart. cbv zeta.
    rewrite Hbin. unfold readFileAsBase64.
    destruct (readAsDataURL file); reflexivity.
  - intros Hbin. unfold fileToPart. cbv zeta.
    destruct (startsWith (File.type file) "image/"
              || (File.type file =? "application/pdf")
              || startsWith (File.type file) "audio/"
              || startsWith (File.type file) "video/") eqn:E.
    + apply binaryMime_iff in E. contradiction.
    + unfold readFileAsText. destruct (readAsText file); reflexivity.
  - intros mime payload Hread Hm Hp. unfold readFileAsBase64.
    rewrite Hread. f_equal.
    replace ("data:" ++ mime ++ ";base64," ++ payload)
      with (("data:" ++ mime ++ ";base64") ++ String "," payload)
      by (now rewrite !append_assoc).
    rewrite split_at_sep, split_no_sep by
        (try assumption;
         rewrite !includes_char_append, Hm; reflexivity).
    reflexivity.
Qed.

End EncoderProperties.

Section ControllerProperties.

Local Open Scope string_scope.

Variable API_KEY : option string.
Variable generateContent :
  Sdk.Request -> Outcome Sdk.GenerateContentResponse.
Variable readAsDataURL : File.t -> option string.
Variable readAsText : File.t -> option string.
Variable JSON_parse : string -> option JsValue.

Lemma replaceById_placeholder pid user placeholder final prev :
  (ChatMessage.id user =? pid) = false ->
  ChatMessage.id placeholder = pid ->
  replaceById pid final (prev ++ [user; placeholder])%list
  = (replaceById pid final prev ++ [user; final])%list.
Proof.
  intros Hu Hp. unfold replaceById. rewrite map_app. cbn [map].
  now rewrite Hu, Hp, String.eqb_refl.
Qed.

(** C4 (as the code has it).  When the service returns no text and a
    first candidate whose finish reason is not STOP, [generate] throws:
    it never returns an empty text.  The thrown message is the error
    normalization of "Response stopped due to: <reason>"; it is that
    very sentence, reason included, when no keyword set matches it and
    the reason has no "[".  A submission that ends this way turns its
    placeholder into a SYSTEM message "Error: <thrown message>". *)
Theorem empty_text_nonstop_fails
        prompt urls fileParts response c0 rest :
  truthy API_KEY = true ->
  generateContent (generateRequest prompt urls fileParts)
  = Return response ->
  truthy (Sdk.text response) = false ->
  Sdk.candidates response = Some (c0 :: rest) ->
  isStop (Sdk.finishReason c0) = false ->
  let reason := showFinishReason (Sdk.finishReason c0) in
  let raw := "Response stopped due to: " ++ reason in
  let thrown := formatGeminiError (ErrorObj raw) in
  snd (generateContentWithContext API_KEY generateContent
         prompt urls fileParts)
  = Throw (ErrorObj thrown)
  /\ (classify (ErrorObj raw) = GenericFallback ->
      includes reason "[" = false ->
      thrown = raw /\ includes thrown reason = true)
  /\ (forall now now' st,
         isEmpty (trim prompt) = false ->
         App.isLoading st = false ->
         App.isFetchingSuggestions st = false ->
         App.currentUrlsForChat st = urls ->
         (if (0 <? List.length (App.currentFilesForChat st))%nat
          then promiseAll (map (fileToPart readAsDataURL readAsText)
                               (App.currentFilesForChat st))
          else Return []) = Return fileParts ->
         let pid := "model-response-" ++ ofNumber now' in
         let failed :=
           ChatMessage.mk pid
             ("Error: " ++ orElse (Some thrown)
                                  "An unexpected error occurred.")
             SYSTEM now' (Some false) None None None in
         App.chatMessages
           (snd (handleSendMessage API_KEY generateContent
                   readAsDataURL readAsText true now now' prompt st))
         = (replaceById pid failed (App.chatMessages st)
              ++ [ChatMessage.mk ("user-" ++ ofNumber now) prompt USER now
                    None None None None;
                  failed])%list).
Proof.
  intros Hk Hresp Htext Hcand Hstop reason raw thrown.
  pose proof (generate_nonstop_throws API_KEY generateContent
                prompt urls fileParts response c0 rest
                Hk Hresp Htext Hcand Hstop) as Hgen.
  fold reason raw thrown in Hgen.
  split; [|split].
  - now rewrite Hgen.
  - intros Hcls Hbr.
    assert (Hraw : thrown = raw)
      by (apply nonstop_message_verbatim; assumption).
    split; [exact Hraw|]. rewrite Hraw. apply includes_iff.
    exists "Response stopped due to: ", EmptyString.
    unfold raw. now rewrite append_nil_r.
  - intros now now' st Hq Hl Hf Hurls Hfiles pid failed.
    unfold handleSendMessage. rewrite Hq, Hl, Hf, Hk. cbn [orb negb].
    rewrite Hfiles, Hurls, Hgen. cbn [messageOf].
    cbn [snd App.setIsLoading App.setChatMessages App.chatMessages
         App.setInitialQuerySuggestions ChatMessage.id].
    apply replaceById_placeholder; reflexivity.
Qed.

(** C9.  Offline, a non-blank query submitted while nothing is in
    flight appends one SYSTEM message with the offline notice and
    nothing else: no request is sent, and no other part of the state
    changes. *)
Theorem offline_submit_appends_notice
        (now now' : N) (query : string) (st : App.State) :
  isEmpty (trim query) = false ->
  App.isLoading st = false ->
  App.isFetchingSuggestions st = false ->
  exists notice,
    handleSendMessage API_KEY generateContent readAsDataURL readAsText
      false now now' query st
    = ([], App.setChatMessages (fun prev => (prev ++ [notice])%list) st)
    /\ ChatMessage.sender notice = SYSTEM
    /\ ChatMessage.text notice = OFFLINE_NOTICE
    /\ includes (toLowerCase (ChatMessage.text notice)) "offline" = true.
Proof.
  intros Hq Hl Hf.
  exists (ChatMessage.mk ("sys-offline-" ++ ofNumber now) OFFLINE_NOTICE
            SYSTEM now None None None None).
  unfold handleSendMessage. rewrite Hq, Hl, Hf. cbn [orb negb].
  repeat split.
Qed.

Lemma parseSuggestions_eq (text : string) :
  parseSuggestions JSON_parse text
  = match JSON_parse (jsonSource text) with
    | Some parsed =>
        match getProp "suggestions" parsed with
        | Some (JArray items) => filterStrings items
        | _ => []
        end
    | None => []
    end.
Proof.
  unfold parseSuggestions.
  destruct (JSON_parse (jsonSource text)) as [parsed|]; [|reflexivity].
  destruct (isTruthy parsed) eqn:E; [reflexivity|].
  destruct parsed; try reflexivity; discriminate E.
Qed.

(** C8.  The suggestion parser hands [JSON.parse] the text without its
    code fence; it keeps the string entries of the parsed value's
    [suggestions] array and nothing when there is no such array; the
    stored list is the first 4 of them; and a text [JSON.parse] rejects
    gives the empty list. *)
Theorem suggestion_parser :
  (forall lang body,
      allChars isWordChar lang = true ->
      (forall c b, body = String c b -> isWordChar c = false) ->
      trim body <> EmptyString ->
      jsonSource ("```" ++ lang ++ body ++ "```") = trim body)
  /\ (forall text,
         startsWith (trim text) "```" = false ->
         jsonSource text = trim text)
  /\ (forall text,
         parseSuggestions JSON_parse text
         = match JSON_parse (jsonSource text) with
           | Some parsed =>
               match getProp "suggestions" parsed with
               | Some (JArray items) => filterStrings items
               | _ => []
               end
           | None => []
           end)
  /\ (forall items s, In s (filterStrings items) <-> In (JString s) items)
  /\ (forall urls st response text,
         truthy API_KEY = true ->
         urls <> [] ->
         generateContent (suggestionsRequest urls) = Return response ->
         Sdk.text response = Some text ->
         text <> EmptyString ->
         let st' :=
           snd (fetchAndSetInitialSuggestions API_KEY generateContent
                  JSON_parse urls st) in
         App.initialQuerySuggestions st'
         = firstn 4 (parseSuggestions JSON_parse text)
         /\ (List.length (App.initialQuerySuggestions st') <= 4)%nat)
  /\ (forall text,
         JSON_parse (jsonSource text) = None ->
         parseSuggestions JSON_parse text = []).
Proof.
  split; [|split; [|split; [|split; [|split]]]].
  - apply jsonSource_fenced.
  - apply jsonSource_plain.
  - apply parseSuggestions_eq.
  - apply In_filterStrings.
  - intros urls st response text Hk Hu Hresp Htext Hne st'.
    assert (E : App.initialQuerySuggestions st'
                = firstn 4 (parseSuggestions JSON_parse text)).
    { subst st'. unfold fetchAndSetInitialSuggestions.
      rewrite Hk. cbn [negb].
      destruct urls as [|u urls']; [congruence|].
      cbn [List.length Nat.eqb].
      unfold getInitialSuggestions, getAiInstance. rewrite Hk.
      cbn [negb List.length Nat.eqb]. rewrite Hresp.
      cbn [bindOutcome rethrowFormatted GeminiResponse.text snd].
      rewrite Htext. destruct text as [|c t]; [congruence|].
      reflexivity. }
    split; [exact E|]. rewrite E. apply firstn_le_length.
  - intros text Hnone. rewrite parseSuggestions_eq. now rewrite Hnone.
Qed.

End ControllerProperties.

(* ================================================================== *)
(** * Part IV.  Instances                                               *)
(* ================================================================== *)

Section Instances.

Local Open Scope string_scope.

(** C1 at the seed store with its second group filled to 20 URLs: the
    caps hold there and after two more adds, and the add at capacity
    changes nothing. *)
Lemma caps_hold_after_adds_witness :
  Forall withinCaps (App.urlGroups Sample.fullStore)
  /\ Forall withinCaps
       (App.urlGroups
          (run Sample.key
             [(1%N, OnAddUrl "https://example.org/new");
              (2%N, OnAddFiles [Sample.todo; Sample.logo])]
             Sample.fullStore))
  /\ App.activeGroup
       (dispatch Sample.key (3%N, OnAddUrl "https://example.org/new")
          Sample.fullStore)
     = App.activeGroup Sample.fullStore.
Proof.
  assert (H : Forall withinCaps (App.urlGroups Sample.fullStore)).
  { apply withinCapsb_correct. vm_compute. reflexivity. }
  destruct (caps_hold_after_adds Sample.key Sample.fullStore H)
    as [Hrun [Hfull _]].
  split; [exact H|]. split; [apply Hrun|].
  apply Hfull. vm_compute. lia.
Defined.

(** C2 at the full store: of the selection notes.txt, todo.md only
    todo.md is added, behind the existing notes.txt. *)
Lemma addFiles_dedup_and_truncate_witness :
  App.currentFilesForChat
    (KnowledgeBaseManager.fileChange Sample.key 5%N
       [Sample.notes; Sample.todo] Sample.fullStore)
  = [Sample.notes; Sample.todo].
Proof.
  assert (Ha : App.activeGroup Sample.fullStore = Some Sample.fullGroup)
    by reflexivity.
  assert (Hl : (List.length (URLGroup.files Sample.fullGroup)
                <= MAX_FILES)%nat) by (simpl; unfold MAX_FILES; lia).
  destruct (addFiles_dedup_and_truncate Sample.key 5%N
              [Sample.notes; Sample.todo] Sample.fullStore
              Sample.fullGroup Ha Hl) as [E _].
  rewrite E. reflexivity.
Defined.

(** C3 at the initial store, with a URL of the first group. *)
Lemma addUrl_present_is_noop_witness :
  App.activeGroup
    (dispatch Sample.key
       (1%N, OnAddUrl "https://ai.google.dev/gemini-api/docs/models")
       App.initial)
  = App.activeGroup App.initial.
Proof.
  apply (proj1 (addUrl_present_is_noop Sample.key)).
  simpl. tauto.
Defined.

(** C4, the claim at the reason SAFETY: the thrown message is the
    safety-policy sentence, which does not contain the reason; the
    reason IMAGE_SAFETY gives the same message. *)
Lemma safety_reason_not_embedded :
  snd (generateContentWithContext Sample.key
         (Sample.answering (Sample.stopped "SAFETY")) "hello" [] [])
  = Throw (ErrorObj MSG_SAFETY)
  /\ includes MSG_SAFETY "SAFETY" = false
  /\ snd (generateContentWithContext Sample.key
            (Sample.answering (Sample.stopped "IMAGE_SAFETY"))
            "hello" [] [])
     = Throw (ErrorObj MSG_SAFETY)
  /\ includes (toLowerCase MSG_SAFETY) (toLowerCase "IMAGE_SAFETY") = false.
Proof. repeat split; vm_compute; reflexivity. Qed.

(** C4 (as the code has it) at the reason MAX_TOKENS, for a question
    asked in the seed store: the thrown message and the transcript. *)
Lemma empty_text_nonstop_fails_witness :
  snd (generateContentWithContext Sample.key
         (Sample.answering (Sample.stopped "MAX_TOKENS"))
         "hello" GEMINI_DOCS_URLS [])
  = Throw (ErrorObj "Response stopped due to: MAX_TOKENS")
  /\ includes "Response stopped due to: MAX_TOKENS" "MAX_TOKENS" = true
  /\ App.chatMessages
       (snd (handleSendMessage Sample.key
               (Sample.answering (Sample.stopped "MAX_TOKENS"))
               Sample.readAsDataURL Sample.readAsText true 7%N 8%N
               "hello" App.initial))
     = [ ChatMessage.mk "user-7" "hello" USER 7%N None None None None;
         ChatMessage.mk "model-response-8"
           "Error: Response stopped due to: MAX_TOKENS"
           SYSTEM 8%N (Some false) None None None ].
Proof.
  destruct (empty_text_nonstop_fails Sample.key
              (Sample.answering (Sample.stopped "MAX_TOKENS"))
              Sample.readAsDataURL Sample.readAsText
              "hello" GEMINI_DOCS_URLS [] (Sample.stopped "MAX_TOKENS")
              (Sdk.mkCandidate (Some "MAX_TOKENS") None) []
              eq_refl eq_refl eq_refl eq_refl eq_refl)
    as [Hthrow [Hraw Hchat]].
  destruct (Hraw eq_refl eq_refl) as [Hfmt Hinc].
  specialize (Hchat 7%N 8%N App.initial
                eq_refl eq_refl eq_refl eq_refl eq_refl).
  cbn [showFinishReason Sdk.finishReason] in Hthrow, Hfmt, Hinc, Hchat.
  rewrite Hfmt in Hthrow, Hinc, Hchat.
  split; [exact Hthrow|]. split; [exact Hinc|].
  rewrite Hchat. reflexivity.
Defined.

(** C5 at a message that has keywords of two sets: the earlier set
    wins. *)
Lemma error_normalization_first_match_witness :
  classify (ErrorObj "Quota exceeded (HTTP 403)") = AuthenticationFailure
  /\ formatGeminiError (ErrorObj "Quota exceeded (HTTP 403)") = MSG_AUTH.
Proof.
  destruct error_normalization_first_match as [Hfmt [Hcls _]].
  assert (E : classify (ErrorObj "Quota exceeded (HTTP 403)")
              = AuthenticationFailure).
  { apply Hcls. left.
    exists [], ["403"; "api key"], (tl KEYWORD_SETS).
    repeat split; constructor. }
  split; [exact E|]. rewrite Hfmt, E. reflexivity.
Defined.

(** C6 at a question with two URLs and one inline fragment. *)
Lemma generate_request_shape_witness :
  fst (generateContentWithContext Sample.key
         (Sample.answering (Sample.stopped "STOP")) "why?"
         ["https://a.example"; "https://b.example"]
         [Sdk.InlineDataPart "image/png" (Some "iVBORw0KGgo=")])
  = [ Sdk.mkRequest MODEL_NAME
        [ Sdk.mkContent "user"
            [ Sdk.InlineDataPart "image/png" (Some "iVBORw0KGgo=");
              Sdk.TextPart
                ("why?" ++ nl ++ nl ++ "Relevant URLs for context:" ++ nl
                 ++ "https://a.example" ++ nl ++ "https://b.example") ] ]
        (Sdk.mkConfig (Some [Sdk.UrlContextTool]) safetySettings None) ].
Proof.
  destruct (generate_request_shape Sample.key
              (Sample.answering (Sample.stopped "STOP")) "why?"
              ["https://a.example"; "https://b.example"]
              [Sdk.InlineDataPart "image/png" (Some "iVBORw0KGgo=")])
    as [Hsent _].
  rewrite Hsent. reflexivity.
Defined.

(** C7 at the sample image and the sample text file. *)
Lemma file_fragment_kind_witness :
  fileToPart Sample.readAsDataURL Sample.readAsText Sample.logo
  = Return (Sdk.InlineDataPart "image/png" (Some "iVBORw0KGgo="))
  /\ fileToPart Sample.readAsDataURL Sample.readAsText Sample.notes
     = Return (Sdk.TextPart
                 ("File: notes.txt" ++ nl ++ "Content:" ++ nl
                  ++ "remember the milk" ++ nl ++ "---" ++ nl)).
Proof.
  destruct (file_fragment_kind Sample.readAsDataURL Sample.readAsText
              Sample.logo) as [Hbin _].
  destruct (file_fragment_kind Sample.readAsDataURL Sample.readAsText
              Sample.notes) as [_ [Htxt _]].
  assert (Hpng : binaryMime (File.type Sample.logo))
    by (left; now exists "png").
  assert (Htext : ~ binaryMime (File.type Sample.notes))
    by (intros [[r E] | [[r E] | [[r E] | E]]]; discriminate E).
  split.
  - exact (proj2 (Hbin Hpng)).
  - exact (Htxt Htext).
Defined.

(** C8 at the fenced block of the specification's example. *)
Lemma suggestion_parser_witness :
  jsonSource Sample.fenced = Sample.payload
  /\ App.initialQuerySuggestions
       (snd (fetchAndSetInitialSuggestions Sample.key
               (Sample.answering
                  (Sdk.mkResponse (Some Sample.fenced) None))
               Sample.JSON_parse ["https://example.org/"] App.initial))
     = ["a"; "b"]
  /\ parseSuggestions Sample.JSON_parse "{not json" = [].
Proof.
  destruct (suggestion_parser Sample.key
              (Sample.answering (Sdk.mkResponse (Some Sample.fenced) None))
              Sample.JSON_parse)
    as [Hfence [_ [_ [_ [Hstore Hbad]]]]].
  split; [|split].
  - apply (Hfence "json" (nl ++ Sample.payload ++ nl)).
    + reflexivity.
    + intros c b E. inversion E. reflexivity.
    + discriminate.
  - assert (Hurls : ["https://example.org/"] <> []) by discriminate.
    assert (Htext : Sample.fenced <> EmptyString) by discriminate.
    destruct (Hstore ["https://example.org/"] App.initial
                (Sdk.mkResponse (Some Sample.fenced) None) Sample.fenced
                eq_refl Hurls eq_refl eq_refl Htext) as [E _].
    rewrite E. reflexivity.
  - apply Hbad. reflexivity.
Defined.

(** C9 at the initial store. *)
Lemma offline_submit_appends_notice_witness :
  exists notice,
    handleSendMessage Sample.key
      (Sample.answering (Sample.stopped "STOP"))
      Sample.readAsDataURL Sample.readAsText false 7%N 8%N "hello"
      App.initial
    = ([], App.setChatMessages (fun prev => (prev ++ [notice])%list)
             App.initial)
    /\ ChatMessage.sender notice = SYSTEM
    /\ ChatMessage.text notice = OFFLINE_NOTICE
    /\ includes (toLowerCase (ChatMessage.text notice)) "offline" = true.
Proof.
  apply (offline_submit_appends_notice Sample.key
           (Sample.answering (Sample.stopped "STOP"))
           Sample.readAsDataURL Sample.readAsText 7%N 8%N "hello"
           App.initial); reflexivity.
Defined.

(** C10 at the initial store: removing a URL that is not there still
    resets the transcript. *)
Lemma store_mutation_resets_transcript_witness :
  App.chatMessages
    (dispatch Sample.key (9%N, OnRemoveUrl "https://example.org/absent")
       (mount Sample.key 1%N))
  = [welcomeMessage Sample.key 9%N (mount Sample.key 1%N)]
  /\ App.urlGroups
       (dispatch Sample.key (9%N, OnRemoveUrl "https://example.org/absent")
          (mount Sample.key 1%N))
     = App.urlGroups (mount Sample.key 1%N).
Proof.
  destruct (store_mutation_resets_transcript Sample.key 9%N
              (mount Sample.key 1%N)) as [Hmut _].
  destruct (Hmut (OnRemoveUrl "https://example.org/absent")) as [E _].
  - intros id. discriminate.
  - split; [rewrite E; reflexivity | reflexivity].
Defined.

(** A few evaluations of the error normalization and of the welcome
    effect. *)

Example format_network_error :
  formatGeminiError (ErrorObj "TypeError: Failed to fetch") = MSG_NETWORK.
Proof. reflexivity. Qed.

Example format_first_match_wins :
  formatGeminiError (ErrorObj "429 quota exceeded, service overloaded")
  = MSG_QUOTA.
Proof. reflexivity. Qed.

Example format_strips_prefixes :
  formatGeminiError
    (ErrorObj "GoogleGenAIError: [400 Bad Request] invalid argument")
  = "invalid argument".
Proof. reflexivity. Qed.

Example format_non_error : formatGeminiError NonError = MSG_UNEXPECTED.
Proof. reflexivity. Qed.

Example fence_without_newlines :
  jsonSource "```js{a}```" = "{a}".
Proof. reflexivity. Qed.

Example empty_fence_is_kept : jsonSource "```json```" = "```json```".
Proof. reflexivity. Qed.

Example duplicate_add_resets_transcript :
  let st := snd (handleSendMessage Sample.key
                   (Sample.answering (Sample.stopped "STOP"))
                   Sample.readAsDataURL Sample.readAsText false 2%N 3%N
                   "hello" (mount Sample.key 1%N)) in
  List.length (App.chatMessages st) = 2
  /\ App.chatMessages
       (dispatch Sample.key
          (4%N, OnAddUrl "https://ai.google.dev/gemini-api/docs") st)
     = [welcomeMessage Sample.key 4%N st]
  /\ App.urlGroups
       (dispatch Sample.key
          (4%N, OnAddUrl "https://ai.google.dev/gemini-api/docs") st)
     = App.urlGroups st.
Proof. cbv zeta. repeat split; vm_compute; reflexivity. Qed.

End Instances.

(* ================================================================== *)
(** * Part V.  Further properties of the code                           *)
(* ================================================================== *)

Section StoreExtras.

Local Open Scope list_scope.
Local Open Scope nat_scope.

Variable API_KEY : option string.

Lemma NoDup_firstn {A : Type} (n : nat) (l : list A) :
  NoDup l -> NoDup (firstn n l).
Proof.
  intros H. rewrite <- (firstn_skipn n l) in H.
  now apply NoDup_app_remove_r in H.
Qed.

Lemma In_firstn {A : Type} (n : nat) (l : list A) (x : A) :
  In x (firstn n l) -> In x l.
Proof.
  intros H. rewrite <- (firstn_skipn n l). apply in_or_app. now left.
Qed.

Lemma names_unique_filter (keep : File.t -> bool) (files : list File.t) :
  NoDup (map File.name files) ->
  NoDup (map File.name (filter keep files)).
Proof.
  intros Hfiles. induction files as [|file files IH]; [constructor|].
  cbn [map] in Hfiles. apply NoDup_cons_iff in Hfiles.
  destruct Hfiles as [Hfresh Hrest]. cbn [filter].
  destruct (keep file); [|now apply IH].
  cbn [map]. constructor; [|now apply IH].
  intros Hin. apply Hfresh. apply in_map_iff in Hin.
  destruct Hin as (other & Hname & Hother).
  apply filter_In in Hother. apply in_map_iff.
  exists other. tauto.
Qed.

Lemma filter_absent (url : string) (l : list string) :
  ~ In url l -> filter (fun u => negb (u =? url)%string) l = l.
Proof.
  induction l as [|u l IH]; simpl; intros H; [reflexivity|].
  destruct (String.eqb_spec u url) as [->|Hne]; simpl.
  - exfalso. apply H. now left.
  - rewrite IH; [reflexivity | tauto].
Qed.

Lemma filter_removes (url : string) (l : list string) :
  ~ In url (filter (fun u => negb (u =? url)%string) l).
Proof.
  intros H. apply filter_In in H. destruct H as [_ H].
  now rewrite String.eqb_refl in H.
Qed.

(** The active group after [onRemoveUrl] and [onRemoveFile]. *)
Lemma activeGroup_removeUrl url st :
  App.activeGroup (handle (OnRemoveUrl url) st)
  = option_map
      (fun group =>
         URLGroup.withUrls group
           (filter (fun u => negb (u =? url)%string) (URLGroup.urls group)))
      (App.activeGroup st).
Proof.
  unfold App.activeGroup, handle, handleRemoveUrl.
  cbn [App.setUrlGroups App.urlGroups App.activeUrlGroupId].
  rewrite find_map_same_id.
  - destruct (find _ (App.urlGroups st)) as [g|] eqn:Hf;
      cbn [option_map]; [|reflexivity].
    apply find_some in Hf. destruct Hf as [_ Hid]. now rewrite Hid.
  - intros g. now destruct (URLGroup.id g =? _)%string.
Qed.

Lemma activeGroup_removeFile fileName st :
  App.activeGroup (handle (OnRemoveFile fileName) st)
  = option_map
      (fun group =>
         URLGroup.withFiles group
           (filter (fun f => negb (File.name f =? fileName)%string)
                   (URLGroup.files group)))
      (App.activeGroup st).
Proof.
  unfold App.activeGroup, handle, handleRemoveFile.
  cbn [App.setUrlGroups App.urlGroups App.activeUrlGroupId].
  rewrite find_map_same_id.
  - destruct (find _ (App.urlGroups st)) as [g|] eqn:Hf;
      cbn [option_map]; [|reflexivity].
    apply find_some in Hf. destruct Hf as [_ Hid]. now rewrite Hid.
  - intros g. now destruct (URLGroup.id g =? _)%string.
Qed.

Lemma group_eta g :
  URLGroup.mk (URLGroup.id g) (URLGroup.name g) (URLGroup.urls g)
              (URLGroup.files g) = g.
Proof. now destruct g. Qed.

(** Every updater maps the groups one by one and keeps each group's id
    and name. *)
Lemma handle_pointwise a st :
  exists f,
    App.urlGroups (handle a st) = map f (App.urlGroups st)
    /\ (forall g, URLGroup.id (f g) = URLGroup.id g
                  /\ URLGroup.name (f g) = URLGroup.name g)
    /\ (forall g, URLGroup.id g <> App.activeUrlGroupId st -> f g = g).
Proof.
  destruct a; cbn [handle App.setUrlGroups App.setActiveUrlGroupId
                   App.urlGroups].
  - eexists. split; [reflexivity|]. split; intros g.
    + destruct (URLGroup.id g =? _)%string; [|now split].
      destruct (_ && _); now split.
    + intros Hne. apply String.eqb_neq in Hne. now rewrite Hne.
  - eexists. split; [reflexivity|]. split; intros g.
    + destruct (URLGroup.id g =? _)%string; now split.
    + intros Hne. apply String.eqb_neq in Hne. now rewrite Hne.
  - eexists. split; [reflexivity|]. split; intros g.
    + destruct (URLGroup.id g =? _)%string; [|now split].
      cbv zeta. destruct (_ <? _); now split.
    + intros Hne. apply String.eqb_neq in Hne. now rewrite Hne.
  - eexists. split; [reflexivity|]. split; intros g.
    + destruct (URLGroup.id g =? _)%string; now split.
    + intros Hne. apply String.eqb_neq in Hne. now rewrite Hne.
  - exists (fun g => g). split; [now rewrite map_id|]. split; intros g; auto.
Qed.

(** X1.  No sequence of store callbacks creates, deletes, reorders or
    renames a group; and one callback leaves every group whose id is not
    the active id exactly as it was. *)
Theorem groups_are_never_created_or_deleted :
  (forall evs st,
      map (fun g => (URLGroup.id g, URLGroup.name g))
          (App.urlGroups (run API_KEY evs st))
      = map (fun g => (URLGroup.id g, URLGroup.name g)) (App.urlGroups st))
  /\ (forall ev st i g,
         nth_error (App.urlGroups st) i = Some g ->
         URLGroup.id g <> App.activeUrlGroupId st ->
         nth_error (App.urlGroups (dispatch API_KEY ev st)) i = Some g).
Proof.
  split.
  - intros evs. induction evs as [|ev evs IH]; intros st; [reflexivity|].
    cbn [run fold_left]. fold (run API_KEY evs (dispatch API_KEY ev st)).
    rewrite IH. unfold dispatch. rewrite urlGroups_commit.
    destruct (handle_pointwise (snd ev) st) as [f [-> [Hf _]]].
    rewrite map_map. apply map_ext. intros g.
    destruct (Hf g) as [-> ->]. reflexivity.
  - intros ev st i g Hnth Hne. unfold dispatch. rewrite urlGroups_commit.
    destruct (handle_pointwise (snd ev) st) as [f [-> [_ Hf]]].
    rewrite nth_error_map, Hnth. cbn [option_map]. now rewrite Hf.
Qed.

Lemma uniqueUrls_map (f : URLGroup.t -> URLGroup.t) (l : list URLGroup.t) :
  (forall g, uniqueUrls g -> uniqueUrls (f g)) ->
  Forall uniqueUrls l -> Forall uniqueUrls (map f l).
Proof. intros Hf H. induction H; simpl; constructor; auto. Qed.

Lemma handle_uniqueUrls a st :
  Forall uniqueUrls (App.urlGroups st) ->
  Forall uniqueUrls (App.urlGroups (handle a st)).
Proof.
  destruct a; cbn [handle App.setUrlGroups App.setActiveUrlGroupId
                   App.urlGroups]; try (intros H; exact H);
    apply uniqueUrls_map; intros g Hg; unfold uniqueUrls in *.
  - destruct (URLGroup.id g =? _)%string; [|assumption].
    destruct (List.length (URLGroup.urls g) <? MAX_URLS);
      cbn [andb]; [|assumption].
    destruct (existsb (String.eqb url) (URLGroup.urls g)) eqn:Hex;
      cbn [negb]; [assumption|].
    cbn [URLGroup.withUrls URLGroup.urls].
    apply NoDup_app; [assumption | repeat constructor; intros [] |].
    intros a Ha [<-|[]].
    apply existsb_eqb_In in Ha. congruence.
  - destruct (URLGroup.id g =? _)%string; [|assumption].
    cbn [URLGroup.withUrls URLGroup.urls]. now apply NoDup_filter.
  - destruct (URLGroup.id g =? _)%string; [|assumption].
    cbv zeta. destruct (_ <? _); assumption.
  - destruct (URLGroup.id g =? _)%string; assumption.
Qed.

(** X2.  In a store whose groups each hold pairwise different URLs (the
    seed store is one), every sequence of store callbacks leaves the URLs
    of every group pairwise different. *)
Theorem urls_stay_unique (st : App.State) :
  Forall uniqueUrls (App.urlGroups st) ->
  forall evs, Forall uniqueUrls (App.urlGroups (run API_KEY evs st)).
Proof.
  intros H evs. revert st H.
  induction evs as [|ev evs IH]; intros st H; [exact H|].
  cbn [run fold_left]. apply IH. unfold dispatch.
  rewrite urlGroups_commit. now apply handle_uniqueUrls.
Qed.

(** X3.  After [onRemoveUrl] the URL is gone from the active group and
    the other URLs keep their order; removing a URL the group does not
    have changes nothing in it; and removing a URL right after adding it
    to a group that had room and did not have it gives the group back. *)
Theorem removeUrl_effect (st : App.State) (now : N) (url : string) :
  App.currentUrlsForChat (dispatch API_KEY (now, OnRemoveUrl url) st)
  = filter (fun u => negb (u =? url)%string) (App.currentUrlsForChat st)
  /\ ~ In url
       (App.currentUrlsForChat (dispatch API_KEY (now, OnRemoveUrl url) st))
  /\ (~ In url (App.currentUrlsForChat st) ->
      App.activeGroup (dispatch API_KEY (now, OnRemoveUrl url) st)
      = App.activeGroup st)
  /\ (forall now' g,
         App.activeGroup st = Some g ->
         ~ In url (URLGroup.urls g) ->
         List.length (URLGroup.urls g) < MAX_URLS ->
         App.activeGroup
           (dispatch API_KEY (now', OnRemoveUrl url)
              (dispatch API_KEY (now, OnAddUrl url) st))
         = Some g).
Proof.
  assert (Hcur : App.currentUrlsForChat
                   (dispatch API_KEY (now, OnRemoveUrl url) st)
                 = filter (fun u => negb (u =? url)%string)
                          (App.currentUrlsForChat st)).
  { unfold App.currentUrlsForChat, dispatch. rewrite activeGroup_commit.
    cbn [fst snd]. rewrite activeGroup_removeUrl.
    now destruct (App.activeGroup st). }
  split; [exact Hcur|]. split; [rewrite Hcur; apply filter_removes|].
  split.
  - intros Hout. unfold dispatch. rewrite activeGroup_commit.
    cbn [fst snd]. rewrite activeGroup_removeUrl.
    unfold App.currentUrlsForChat in Hout.
    destruct (App.activeGroup st) as [g|]; [|reflexivity].
    cbn [option_map]. rewrite filter_absent by assumption.
    unfold URLGroup.withUrls. now rewrite group_eta.
  - intros now' g Hact Hout Hroom. unfold dispatch at 1.
    rewrite activeGroup_commit. cbn [fst snd].
    rewrite activeGroup_removeUrl. unfold dispatch.
    rewrite activeGroup_commit. cbn [fst snd].
    rewrite activeGroup_addUrl, Hact. cbn [option_map].
    apply Nat.ltb_lt in Hroom. rewrite Hroom.
    assert (Hex : existsb (String.eqb url) (URLGroup.urls g) = false).
    { destruct (existsb (String.eqb url) (URLGroup.urls g)) eqn:E;
        [|reflexivity].
      apply existsb_eqb_In in E. contradiction. }
    rewrite Hex. cbn [andb negb URLGroup.withUrls URLGroup.urls
                      URLGroup.id URLGroup.name URLGroup.files].
    rewrite filter_app, filter_absent by assumption.
    cbn [filter]. rewrite String.eqb_refl. cbn [negb].
    rewrite app_nil_r. now destruct g.
Qed.

Lemma filter_name_absent (fileName : string) (l : list File.t) :
  ~ In fileName (map File.name l) ->
  filter (fun f => negb (File.name f =? fileName)%string) l = l.
Proof.
  induction l as [|f l IH]; simpl; intros H; [reflexivity|].
  destruct (String.eqb_spec (File.name f) fileName) as [E|Hne]; simpl.
  - exfalso. apply H. now left.
  - rewrite IH; [reflexivity | tauto].
Qed.

(** X4.  After [onRemoveFile] no file of that name is left in the active
    group, every file of another name is kept, in order, and removing a
    name the group does not have changes nothing in it. *)
Theorem removeFile_effect (st : App.State) (now : N) (fileName : string) :
  App.currentFilesForChat (dispatch API_KEY (now, OnRemoveFile fileName) st)
  = filter (fun f => negb (File.name f =? fileName)%string)
           (App.currentFilesForChat st)
  /\ ~ In fileName
       (map File.name
          (App.currentFilesForChat
             (dispatch API_KEY (now, OnRemoveFile fileName) st)))
  /\ (forall f,
         In f (App.currentFilesForChat st) ->
         File.name f <> fileName ->
         In f (App.currentFilesForChat
                 (dispatch API_KEY (now, OnRemoveFile fileName) st)))
  /\ (~ In fileName (map File.name (App.currentFilesForChat st)) ->
      App.activeGroup (dispatch API_KEY (now, OnRemoveFile fileName) st)
      = App.activeGroup st).
Proof.
  assert (Hcur : App.currentFilesForChat
                   (dispatch API_KEY (now, OnRemoveFile fileName) st)
                 = filter (fun f => negb (File.name f =? fileName)%string)
                          (App.currentFilesForChat st)).
  { unfold App.currentFilesForChat, dispatch. rewrite activeGroup_commit.
    cbn [fst snd]. rewrite activeGroup_removeFile.
    now destruct (App.activeGroup st). }
  split; [exact Hcur|]. rewrite Hcur. split; [|split].
  - intros H. apply in_map_iff in H. destruct H as [f [Hn Hf]].
    apply filter_In in Hf. destruct Hf as [_ Hf].
    rewrite Hn, String.eqb_refl in Hf. discriminate.
  - intros f Hin Hne. apply filter_In. split; [assumption|].
    apply String.eqb_neq in Hne. now rewrite Hne.
  - intros Hout. unfold dispatch. rewrite activeGroup_commit.
    cbn [fst snd]. rewrite activeGroup_removeFile.
    unfold App.currentFilesForChat in Hout.
    destruct (App.activeGroup st) as [g|]; [|reflexivity].
    cbn [option_map]. rewrite filter_name_absent by assumption.
    unfold URLGroup.withFiles. now rewrite group_eta.
Qed.

(** The files of the active group after a file selection. *)
Lemma fileChange_files now newFiles st g :
  App.activeGroup st = Some g ->
  List.length (URLGroup.files g) <= MAX_FILES ->
  App.currentFilesForChat
    (KnowledgeBaseManager.fileChange API_KEY now newFiles st)
  = firstn MAX_FILES
      (URLGroup.files g
         ++ filter (fun f =>
                      negb (existsb (String.eqb (File.name f))
                                    (map File.name (URLGroup.files g))))
                   newFiles).
Proof.
  intros Hact Hcap.
  assert (Hcur : App.currentFilesForChat st = URLGroup.files g)
    by (unfold App.currentFilesForChat; now rewrite Hact).
  unfold KnowledgeBaseManager.fileChange,
    KnowledgeBaseManager.handleFileChange.
  cbn [KnowledgeBaseManager.propsOf KnowledgeBaseManager.files].
  rewrite Hcur.
  set (fresh := filter _ newFiles).
  assert (Hnone : fresh = [] ->
                  App.currentFilesForChat st
                  = firstn MAX_FILES (URLGroup.files g ++ fresh)).
  { intros ->. rewrite app_nil_r, firstn_all2 by assumption. exact Hcur. }
  destruct (0 <? List.length newFiles) eqn:Hnew; cbn [snd].
  - destruct (0 <? List.length fresh) eqn:Hfresh.
    + unfold App.currentFilesForChat, dispatch.
      rewrite activeGroup_commit. cbn [fst snd].
      now rewrite activeGroup_addFiles, Hact.
    + apply Nat.ltb_ge in Hfresh. apply Hnone.
      destruct fresh; [reflexivity | simpl in Hfresh; lia].
  - apply Nat.ltb_ge in Hnew. apply Hnone. subst fresh.
    destruct newFiles; [reflexivity | simpl in Hnew; lia].
Qed.

(** X5.  If the names of the active group's files are pairwise different
    and so are the names of the selected files, they still are after the
    selection has been added. *)
Theorem file_names_stay_unique now newFiles st g :
  App.activeGroup st = Some g ->
  List.length (URLGroup.files g) <= MAX_FILES ->
  uniqueFileNames g ->
  NoDup (map File.name newFiles) ->
  NoDup (map File.name
           (App.currentFilesForChat
              (KnowledgeBaseManager.fileChange API_KEY now newFiles st))).
Proof.
  intros Hact Hcap Hg Hnew.
  rewrite (fileChange_files now newFiles st g Hact Hcap).
  rewrite <- firstn_map. apply NoDup_firstn. rewrite map_app.
  apply NoDup_app.
  - exact Hg.
  - now apply names_unique_filter.
  - intros a Ha Hb. apply in_map_iff in Hb. destruct Hb as [f [Hf Hin]].
    apply filter_In in Hin. destruct Hin as [_ Hin].
    apply negb_true_iff in Hin. subst a.
    apply existsb_eqb_In in Ha. congruence.
Qed.

(** X6.  When the sidebar accepts the typed URL (it is not blank, it
    parses, the group has room and does not have it), it clears the
    input and the error and calls [onAddUrl], and the store then holds
    the URL as the last one of the active group. *)
Theorem sidebar_accept_appends (isValidUrl : string -> bool)
        (st : App.State) (kb : KnowledgeBaseManager.State)
        (a : Action) (g : URLGroup.t) :
  App.activeGroup st = Some g ->
  snd (KnowledgeBaseManager.handleAddUrl isValidUrl
         (KnowledgeBaseManager.propsOf st) kb) = Some a ->
  let input := KnowledgeBaseManager.currentUrlInput kb in
  a = OnAddUrl input
  /\ isEmpty (trim input) = false
  /\ isValidUrl input = true
  /\ fst (KnowledgeBaseManager.handleAddUrl isValidUrl
            (KnowledgeBaseManager.propsOf st) kb)
     = KnowledgeBaseManager.mkState EmptyString None
  /\ (forall now,
         App.currentUrlsForChat (dispatch API_KEY (now, a) st)
         = URLGroup.urls g ++ [input]).
Proof.
  intros Hact Hcall input.
  assert (Hcur : App.currentUrlsForChat st = URLGroup.urls g)
    by (unfold App.currentUrlsForChat; now rewrite Hact).
  unfold KnowledgeBaseManager.handleAddUrl in *.
  cbn [KnowledgeBaseManager.propsOf KnowledgeBaseManager.urls
       KnowledgeBaseManager.maxUrls] in *.
  fold input in Hcall |- *. rewrite Hcur in *.
  destruct (isEmpty (trim input)); [discriminate Hcall|].
  destruct (isValidUrl input); [|discriminate Hcall].
  cbn [negb] in *.
  destruct (MAX_URLS <=? List.length (URLGroup.urls g)) eqn:Hcap;
    [discriminate Hcall|].
  destruct (existsb (String.eqb input) (URLGroup.urls g)) eqn:Hex;
    [discriminate Hcall|].
  cbn [snd fst] in *. inversion Hcall. subst a.
  repeat split. intros now.
  unfold App.currentUrlsForChat, dispatch. rewrite activeGroup_commit.
  cbn [fst snd]. rewrite activeGroup_addUrl, Hact. cbn [option_map].
  apply Nat.leb_gt in Hcap. apply Nat.ltb_lt in Hcap.
  now rewrite Hcap, Hex.
Qed.

Lemma activeGroup_some_iff st :
  App.activeGroup st <> None
  <-> In (App.activeUrlGroupId st) (map URLGroup.id (App.urlGroups st)).
Proof.
  unfold App.activeGroup. split.
  - destruct (find _ (App.urlGroups st)) as [g|] eqn:Hf; [|congruence].
    intros _. apply find_some in Hf. destruct Hf as [Hin Hid].
    apply String.eqb_eq in Hid. rewrite <- Hid. now apply in_map.
  - intros Hin Hnone. apply in_map_iff in Hin. destruct Hin as [g [Hid Hg]].
    pose proof (find_none _ _ Hnone g Hg) as Hf. cbv beta in Hf.
    rewrite Hid, String.eqb_refl in Hf. discriminate.
Qed.

Lemma dispatch_ids ev st :
  map URLGroup.id (App.urlGroups (dispatch API_KEY ev st))
  = map URLGroup.id (App.urlGroups st).
Proof.
  unfold dispatch. rewrite urlGroups_commit.
  destruct (handle_pointwise (snd ev) st) as [f [-> [Hf _]]].
  rewrite map_map. apply map_ext. intros g. now destruct (Hf g).
Qed.

(** X7.  If the active id names a group of the store and every switch
    goes to an id of the store (the sidebar's selector offers no other),
    then after any sequence of store callbacks the active id still names
    a group. *)
Theorem active_group_stays_resolvable (st : App.State)
        (evs : list (N * Action)) :
  App.activeGroup st <> None ->
  Forall (knownSwitch (map URLGroup.id (App.urlGroups st))) evs ->
  App.activeGroup (run API_KEY evs st) <> None.
Proof.
  revert st. induction evs as [|ev evs IH]; intros st Hact Hevs;
    [exact Hact|].
  inversion Hevs as [|ev' evs' Hev Hrest]; subst.
  cbn [run fold_left]. apply IH.
  - apply activeGroup_some_iff. rewrite dispatch_ids.
    unfold dispatch. rewrite activeUrlGroupId_commit.
    apply activeGroup_some_iff in Hact.
    unfold knownSwitch in Hev. destruct (snd ev); exact Hev || exact Hact.
  - now rewrite dispatch_ids.
Qed.

End StoreExtras.

Section GatewayExtras.

Local Open Scope string_scope.

Variable API_KEY : option string.
Variable generateContent :
  Sdk.Request -> Outcome Sdk.GenerateContentResponse.

(** X8.  Without a credential no gateway operation sends a request.
    [generate] and [suggestInitialQueries] (for a non-empty URL list)
    throw the configuration message as it is; [summarize] throws the
    authentication message, because its own [catch] normalizes the
    configuration message, which mentions "API Key". *)
Theorem missing_key_sends_nothing prompt urls fileParts :
  truthy API_KEY = false ->
  generateContentWithContext API_KEY generateContent prompt urls fileParts
  = ([], Throw (ErrorObj MSG_NO_KEY))
  /\ (urls <> [] ->
      getInitialSuggestions API_KEY generateContent urls
      = ([], Throw (ErrorObj MSG_NO_KEY)))
  /\ getSummaryForUrls API_KEY generateContent urls
     = ([], Throw (ErrorObj MSG_AUTH)).
Proof.
  intros Hk.
  assert (Hgen : forall p u f,
             generateContentWithContext API_KEY generateContent p u f
             = ([], Throw (ErrorObj MSG_NO_KEY))).
  { intros p u f. unfold generateContentWithContext, getAiInstance.
    now rewrite Hk. }
  split; [apply Hgen|]. split.
  - intros Hne. unfold getInitialSuggestions, getAiInstance.
    destruct urls; [congruence|]. cbn [List.length Nat.eqb].
    now rewrite Hk.
  - unfold getSummaryForUrls. rewrite Hgen. reflexivity.
Qed.

(** X9.  With a credential [generate] sends exactly one request.  It
    returns normally exactly when the service returned a response that
    has some text, or has no first candidate, or whose first candidate
    stopped with STOP; the result then carries the response text (the
    empty string when there is none) and the URL metadata of the first
    candidate. *)
Theorem generate_outcome prompt urls fileParts :
  truthy API_KEY = true ->
  let request := generateRequest prompt urls fileParts in
  let result :=
    generateContentWithContext API_KEY generateContent
      prompt urls fileParts in
  fst result = [request]
  /\ ((exists r, snd result = Return r) <->
      (exists response,
          generateContent request = Return response
          /\ (truthy (Sdk.text response) = true
              \/ firstCandidate response = None
              \/ exists c0, firstCandidate response = Some c0
                            /\ isStop (Sdk.finishReason c0) = true)))
  /\ (forall r,
         snd result = Return r ->
         exists response,
           generateContent request = Return response
           /\ GeminiResponse.text r
              = Some (orElse (Sdk.text response) EmptyString)
           /\ GeminiResponse.urlContextMetadata r
              = match firstCandidate response with
                | Some c0 =>
                    match Sdk.urlContextMetadata c0 with
                    | Some m => Sdk.urlMetadata m
                    | None => None
                    end
                | None => None
                end).
Proof.
  intros Hk request result. subst result.
  rewrite sent_with_key by assumption. cbn [fst snd]. fold request.
  split; [reflexivity|].
  assert (Hempty : forall o, truthy o = negb (isEmpty (orElse o EmptyString))).
  { intros [[|c s]|]; reflexivity. }
  split; [split|].
  - intros [r Hr]. destruct (generateContent request) as [response|e];
      [|discriminate Hr].
    exists response. split; [reflexivity|].
    cbn [bindOutcome] in Hr. unfold readResponse, firstCandidate in *.
    rewrite Hempty.
    destruct (Sdk.candidates response) as [[|c0 cs]|]; auto.
    destruct (isEmpty (orElse (Sdk.text response) EmptyString)); auto.
    destruct (isStop (Sdk.finishReason c0)) eqn:Hs;
      [|discriminate Hr].
    right. right. now exists c0.
  - intros [response [Hresp Hok]]. rewrite Hresp. cbn [bindOutcome].
    unfold readResponse, firstCandidate in *. rewrite Hempty in Hok.
    destruct (Sdk.candidates response) as [[|c0 cs]|];
      try (eexists; reflexivity).
    destruct Hok as [Ht | [Hn | [c [Hc Hs]]]].
    + apply negb_true_iff in Ht. rewrite Ht. eexists; reflexivity.
    + discriminate Hn.
    + inversion Hc; subst c. rewrite Hs, andb_false_r.
      eexists; reflexivity.
  - intros r Hr. destruct (generateContent request) as [response|e];
      [|discriminate Hr].
    exists response. split; [reflexivity|].
    cbn [bindOutcome] in Hr. unfold readResponse, firstCandidate in *.
    destruct (Sdk.candidates response) as [[|c0 cs]|];
      try (inversion Hr; subst r; split; reflexivity).
    destruct (isEmpty (orElse (Sdk.text response) EmptyString)
              && negb (isStop (Sdk.finishReason c0)));
      [discriminate Hr|].
    inversion Hr; subst r. split; reflexivity.
Qed.

(** The fixed category sentences normalize to themselves. *)
Lemma categoryText_stable (c : ErrorCategory) (e : Thrown) :
  c <> GenericFallback ->
  formatGeminiError (ErrorObj (categoryText c e)) = categoryText c e.
Proof.
  intros Hc. destruct c; try reflexivity. congruence.
Qed.

(** X10.  [summarize] normalizes an error twice, once in [generate] and
    once in its own [catch]; for a service error of any category but the
    fallback the user still gets that category's sentence.  When the
    service answers with a text, that text is the summary. *)
Theorem summarize_outcome (urls : list string) :
  truthy API_KEY = true ->
  let request := generateRequest SUMMARY_PROMPT urls [] in
  fst (getSummaryForUrls API_KEY generateContent urls) = [request]
  /\ (forall e,
         generateContent request = Throw e ->
         classify e <> GenericFallback ->
         snd (getSummaryForUrls API_KEY generateContent urls)
         = Throw (ErrorObj (categoryText (classify e) e)))
  /\ (forall response,
         generateContent request = Return response ->
         truthy (Sdk.text response) = true ->
         snd (getSummaryForUrls API_KEY generateContent urls)
         = Return (orElse (Sdk.text response) "No summary available.")).
Proof.
  intros Hk request. unfold getSummaryForUrls.
  rewrite sent_with_key by assumption. fold request. cbn [fst snd].
  split; [reflexivity|]. split.
  - intros e He Hc. rewrite He. cbn [bindOutcome rethrowFormatted].
    rewrite (formatGeminiError_classify e).
    now rewrite categoryText_stable.
  - intros response Hresp Ht. rewrite Hresp. cbn [bindOutcome].
    unfold readResponse.
    assert (E : isEmpty (orElse (Sdk.text response) EmptyString) = false).
    { destruct (Sdk.text response) as [[|c s]|]; try discriminate Ht.
      reflexivity. }
    rewrite E. cbn [andb].
    assert (E' : orElse (Some (orElse (Sdk.text response) EmptyString))
                        "No summary available."
                 = orElse (Sdk.text response) "No summary available.").
    { destruct (Sdk.text response) as [[|c s]|]; try discriminate Ht.
      reflexivity. }
    destruct (Sdk.candidates response) as [[|c0 cs]|];
      cbn [rethrowFormatted bindOutcome GeminiResponse.text];
      now rewrite E'.
Qed.

End GatewayExtras.

Section CleanupExtras.

Local Open Scope string_scope.

Lemma first_char_absent c d (s : string) :
  includes (String d s) (String c EmptyString) = false ->
  (d =? c)%char = false /\ includes s (String c EmptyString) = false.
Proof.
  cbn [includes startsWith]. rewrite andb_true_r.
  intros H. now apply orb_false_iff in H.
Qed.

(** The scan steps over a prefix that lacks the pattern's first
    character. *)
Lemma scan_skip total c pat acc (pre s : string) :
  includes pre (String c EmptyString) = false ->
  s <> EmptyString ->
  scan total (Char c :: pat) acc (pre ++ s)
  = scan total (Char c :: pat) (acc ++ pre) s.
Proof.
  revert acc. induction pre as [|d pre IH]; intros acc Hpre Hs.
  - now rewrite append_nil_r.
  - apply first_char_absent in Hpre. destruct Hpre as [Hd Hpre].
    cbn [append scan matchSeq matchNode]. rewrite Hd.
    rewrite IH by assumption. f_equal.
    rewrite append_assoc. reflexivity.
Qed.

(** The bracket pattern on a string whose first "[" opens a tag that is
    closed on the same line. *)
Lemma removeFirst_bracket_tag (pre tag ws rest : string) :
  includes pre "[" = false ->
  includes tag "]" = false ->
  allChars isDot tag = true ->
  allChars isWhiteSpace ws = true ->
  (forall c r, rest = String c r -> isWhiteSpace c = false) ->
  removeFirst bracketTagRegex (pre ++ "[" ++ tag ++ "]" ++ ws ++ rest)
  = pre ++ rest.
Proof.
  intros Hpre Htag Hdot Hws Hrest.
  unfold removeFirst, exec, bracketTagRegex.
  rewrite scan_skip by (assumption || discriminate).
  cbn [append].
  rewrite (scan_hit _ _ _ _ rest []).
  - cbn [before after]. reflexivity.
  - cbn [matchSeq matchNode]. rewrite Ascii.eqb_refl.
    apply starLazy_app.
    + exact Hdot.
    + intros a1 a2 E Hne. destruct a2 as [|c a2]; [congruence|].
      subst tag. rewrite includes_char_append in Htag.
      apply orb_false_iff in Htag. destruct Htag as [_ Htag].
      apply first_char_absent in Htag. destruct Htag as [Hc _].
      cbn [append]. now rewrite Hc.
    + cbn [append]. rewrite Ascii.eqb_refl.
      now apply starGreedy_app.
Qed.

(** The prefix pattern on a string that starts with the prefix. *)
Lemma removeFirst_prefix (ws rest : string) :
  allChars isWhiteSpace ws = true ->
  (forall c r, rest = String c r -> isWhiteSpace c = false) ->
  removeFirst errorPrefixRegex ("GoogleGenAIError:" ++ ws ++ rest) = rest.
Proof.
  intros Hws Hrest. unfold removeFirst, exec.
  rewrite (scan_hit _ _ _ _ rest []); [reflexivity|].
  unfold errorPrefixRegex.
  cbn [literal app matchSeq]. cbn [matchNode]. rewrite Nat.eqb_refl.
  cbn [append matchNode Ascii.eqb Bool.eqb].
  now apply starGreedy_app.
Qed.

(** X11.  For an error no keyword set matches, the user sees the message
    without its first bracketed tag and the blanks after it: with
    [msg = pre [tag] rest], where the tag is the first bracket group and
    closes on its line, the result is [pre rest], provided that does
    not itself start with the SDK prefix. *)
Theorem fallback_strips_bracket_tag (pre tag ws rest : string) :
  classify (ErrorObj (pre ++ "[" ++ tag ++ "]" ++ ws ++ rest))
  = GenericFallback ->
  includes pre "[" = false ->
  includes tag "]" = false ->
  allChars isDot tag = true ->
  allChars isWhiteSpace ws = true ->
  (forall c r, rest = String c r -> isWhiteSpace c = false) ->
  startsWith (pre ++ rest) "GoogleGenAIError:" = false ->
  formatGeminiError (ErrorObj (pre ++ "[" ++ tag ++ "]" ++ ws ++ rest))
  = pre ++ rest.
Proof.
  intros Hcls Hpre Htag Hdot Hws Hrest Hnot.
  rewrite formatGeminiError_classify, Hcls. cbn [categoryText].
  rewrite removeFirst_bracket_tag by assumption.
  now apply removeFirst_prefix_id.
Qed.

(** X12.  For an error no keyword set matches and that has no bracket,
    the SDK prefix "GoogleGenAIError:" and the blanks after it are
    removed from the front of the message. *)
Theorem fallback_strips_sdk_prefix (ws rest : string) :
  classify (ErrorObj ("GoogleGenAIError:" ++ ws ++ rest))
  = GenericFallback ->
  includes ws "[" = false ->
  includes rest "[" = false ->
  allChars isWhiteSpace ws = true ->
  (forall c r, rest = String c r -> isWhiteSpace c = false) ->
  formatGeminiError (ErrorObj ("GoogleGenAIError:" ++ ws ++ rest)) = rest.
Proof.
  intros Hcls Hw Hr Hws Hrest.
  rewrite formatGeminiError_classify, Hcls. cbn [categoryText].
  rewrite removeFirst_bracket_id.
  - now apply removeFirst_prefix.
  - rewrite !includes_char_append, Hw, Hr. reflexivity.
Qed.

End CleanupExtras.

Section ControllerExtras.

Local Open Scope string_scope.

Variable API_KEY : option string.
Variable generateContent :
  Sdk.Request -> Outcome Sdk.GenerateContentResponse.
Variable readAsDataURL : File.t -> option string.
Variable readAsText : File.t -> option string.

(** An accepted submission, step by step. *)
Lemma handleSendMessage_accepted (now now' : N) (query : string)
      (st : App.State) :
  isEmpty (trim query) = false ->
  App.isLoading st = false ->
  App.isFetchingSuggestions st = false ->
  truthy API_KEY = true ->
  let asked :=
    askGateway API_KEY generateContent readAsDataURL readAsText query st in
  let final := settledMessage now' (snd asked) in
  handleSendMessage API_KEY generateContent readAsDataURL readAsText
    true now now' query st
  = (fst asked,
     App.mk (App.urlGroups st) (App.urlGroupsStamp st)
       (App.activeUrlGroupId st)
       (replaceById ("model-response-" ++ ofNumber now') final
          (App.chatMessages st)
        ++ [ChatMessage.mk ("user-" ++ ofNumber now) query USER now
              None None None None; final])%list
       false false []).
Proof.
  intros Hq Hl Hf Hk asked final. subst final asked.
  unfold handleSendMessage, askGateway, encodeFiles.
  rewrite Hq, Hl, Hf, Hk. cbn [orb negb].
  destruct (if (0 <? List.length (App.currentFilesForChat st))%nat
            then promiseAll (map (fileToPart readAsDataURL readAsText)
                                 (App.currentFilesForChat st))
            else Return []) as [fileParts|e].
  - destruct (generateContentWithContext API_KEY generateContent query
                (App.currentUrlsForChat st) fileParts) as [sent [r|e]];
      cbn [fst snd settledMessage ChatMessage.id];
      unfold App.setIsLoading, App.setChatMessages,
        App.setInitialQuerySuggestions;
      cbn [App.urlGroups App.urlGroupsStamp App.activeUrlGroupId
           App.chatMessages App.isLoading App.isFetchingSuggestions
           App.initialQuerySuggestions];
      rewrite Hf; f_equal; f_equal;
      apply replaceById_placeholder; reflexivity.
  - cbn [fst snd settledMessage ChatMessage.id].
    unfold App.setIsLoading, App.setChatMessages,
      App.setInitialQuerySuggestions.
    cbn [App.urlGroups App.urlGroupsStamp App.activeUrlGroupId
         App.chatMessages App.isLoading App.isFetchingSuggestions
         App.initialQuerySuggestions].
    rewrite Hf. f_equal. f_equal.
    apply replaceById_placeholder; reflexivity.
Qed.

Lemma askGateway_at_most_one (query : string) (st : App.State) :
  (List.length
     (fst (askGateway API_KEY generateContent readAsDataURL readAsText
             query st)) <= 1)%nat.
Proof.
  unfold askGateway.
  destruct (encodeFiles readAsDataURL readAsText st); [|simpl; lia].
  unfold generateContentWithContext.
  destruct getAiInstance; simpl; lia.
Qed.

(** X13.  Whatever the query, the state and the collaborators do, a
    submission run to its end never touches the knowledge base (so it
    never triggers the welcome reset), leaves the suggestion-fetch flag
    alone, ends with the loading flag as it found it (it is raised only
    while the request is out), and has sent at most one request. *)
Theorem submit_keeps_store_and_releases_flag
        (onLine : bool) (now now' : N) (query : string) (st : App.State) :
  let result :=
    handleSendMessage API_KEY generateContent readAsDataURL readAsText
      onLine now now' query st in
  App.urlGroups (snd result) = App.urlGroups st
  /\ App.urlGroupsStamp (snd result) = App.urlGroupsStamp st
  /\ App.activeUrlGroupId (snd result) = App.activeUrlGroupId st
  /\ App.isFetchingSuggestions (snd result) = App.isFetchingSuggestions st
  /\ App.isLoading (snd result) = App.isLoading st
  /\ (List.length (fst result) <= 1)%nat
  /\ (forall t, commit API_KEY t st (snd result) = snd result).
Proof.
  cbv zeta.
  assert (Hcommit : forall st',
             App.urlGroupsStamp st' = App.urlGroupsStamp st ->
             App.activeUrlGroupId st' = App.activeUrlGroupId st ->
             forall t, commit API_KEY t st st' = st').
  { intros st' Hs Ha t. unfold commit, welcomeDepsChanged.
    now rewrite Hs, Ha, String.eqb_refl, Nat.eqb_refl. }
  destruct (isEmpty (trim query) || App.isLoading st
            || App.isFetchingSuggestions st) eqn:Hguard.
  - unfold handleSendMessage. rewrite Hguard. cbn [fst snd].
    repeat split; auto using Nat.le_0_l.
  - apply orb_false_iff in Hguard. destruct Hguard as [Hguard Hf].
    apply orb_false_iff in Hguard. destruct Hguard as [Hq Hl].
    destruct onLine.
    + destruct (truthy API_KEY) eqn:Hk.
      * rewrite (handleSendMessage_accepted now now' query st Hq Hl Hf Hk).
        cbn [fst snd App.urlGroups App.urlGroupsStamp App.activeUrlGroupId
             App.isFetchingSuggestions App.isLoading].
        repeat split;
          auto using askGateway_at_most_one.
      * unfold handleSendMessage. rewrite Hq, Hl, Hf, Hk.
        cbn [orb negb fst snd]. repeat split; auto using Nat.le_0_l.
    + unfold handleSendMessage. rewrite Hq, Hl, Hf.
      cbn [orb negb fst snd]. repeat split; auto using Nat.le_0_l.
Qed.


Lemma promiseAll_map_Return {A : Type} (l : list A) :
  promiseAll (map Return l) = Return l.
Proof.
  induction l as [|a l IH]; [reflexivity|].
  cbn [map promiseAll]. now rewrite IH.
Qed.

Lemma fileToPart_throws (file : File.t) (e : Thrown) :
  fileToPart readAsDataURL readAsText file = Throw e -> e = NonError.
Proof.
  unfold fileToPart, readFileAsBase64, readFileAsText.
  destruct (_ || _);
    [destruct (readAsDataURL file)|destruct (readAsText file)];
    cbn [bindOutcome]; congruence.
Qed.

Lemma promiseAll_rejects (files : list File.t) (file : File.t)
      (e : Thrown) :
  In file files ->
  fileToPart readAsDataURL readAsText file = Throw e ->
  promiseAll (map (fileToPart readAsDataURL readAsText) files)
  = Throw NonError.
Proof.
  intros Hin Hthrow.
  induction files as [|f files IH]; [contradiction|].
  cbn [map promiseAll].
  destruct (fileToPart readAsDataURL readAsText f) as [part|e'] eqn:Hf.
  - destruct Hin as [->|Hin]; [congruence|].
    now rewrite (IH Hin).
  - now rewrite (fileToPart_throws f e' Hf).
Qed.

(** X15.  An accepted submission whose files can all be read sends
    exactly one request, and it is the gateway's request for the query,
    the active group's URLs and the fragments of the active group's
    files, one per file and in the order of the files. *)
Theorem submit_request_contents
        (now now' : N) (query : string) (st : App.State)
        (parts : list Sdk.Part) :
  isEmpty (trim query) = false ->
  App.isLoading st = false ->
  App.isFetchingSuggestions st = false ->
  truthy API_KEY = true ->
  map (fileToPart readAsDataURL readAsText) (App.currentFilesForChat st)
  = map Return parts ->
  fst (handleSendMessage API_KEY generateContent readAsDataURL readAsText
         true now now' query st)
  = [generateRequest query (App.currentUrlsForChat st) parts].
Proof.
  intros Hq Hl Hf Hk Hparts.
  rewrite (handleSendMessage_accepted now now' query st Hq Hl Hf Hk).
  cbn [fst]. unfold askGateway, encodeFiles.
  rewrite Hparts, promiseAll_map_Return.
  assert (Hnone : (0 <? List.length (App.currentFilesForChat st))%nat
                  = false -> parts = []).
  { intros H0. apply Nat.ltb_ge in H0.
    destruct (App.currentFilesForChat st); [|cbn in H0; lia].
    destruct parts; [reflexivity|discriminate]. }
  assert (Hone : fst (generateContentWithContext API_KEY generateContent
                        query (App.currentUrlsForChat st) parts)
                 = [generateRequest query (App.currentUrlsForChat st)
                      parts]).
  { unfold generateContentWithContext, getAiInstance.
    now rewrite Hk. }
  destruct (0 <? List.length (App.currentFilesForChat st))%nat;
    [exact Hone|].
  pose proof (Hnone eq_refl) as Hnil. subst parts. exact Hone.
Qed.

(** X16.  If one of the active group's files cannot be read, an accepted
    submission sends no request at all, whatever the other files are,
    and the placeholder is replaced by a SYSTEM message with the
    fallback text: the event a failed [FileReader] rejects with carries
    no message. *)
Theorem file_read_error_skips_gateway
        (now now' : N) (query : string) (st : App.State)
        (file : File.t) (e : Thrown) :
  isEmpty (trim query) = false ->
  App.isLoading st = false ->
  App.isFetchingSuggestions st = false ->
  truthy API_KEY = true ->
  In file (App.currentFilesForChat st) ->
  fileToPart readAsDataURL readAsText file = Throw e ->
  let result :=
    handleSendMessage API_KEY generateContent readAsDataURL readAsText
      true now now' query st in
  let final :=
    ChatMessage.mk ("model-response-" ++ ofNumber now')
      "Error: An unexpected error occurred." SYSTEM now' (Some false)
      None None None in
  fst result = []
  /\ App.chatMessages (snd result)
     = (replaceById ("model-response-" ++ ofNumber now') final
          (App.chatMessages st)
        ++ [ChatMessage.mk ("user-" ++ ofNumber now) query USER now
              None None None None; final])%list.
Proof.
  intros Hq Hl Hf Hk Hin Hthrow result final. subst result final.
  rewrite (handleSendMessage_accepted now now' query st Hq Hl Hf Hk).
  cbn [fst snd App.chatMessages].
  unfold askGateway, encodeFiles.
  rewrite (promiseAll_rejects _ file e Hin Hthrow).
  destruct (App.currentFilesForChat st) as [|f files]; [contradiction|].
  cbn [List.length Nat.ltb Nat.leb fst snd settledMessage messageOf
       orElse].
  split; reflexivity.
Qed.

(** X17.  Without a credential no submission sends a request, and the
    placeholder is never shown: the state is left as it was (blank query
    or something in flight), or the transcript gains exactly one SYSTEM
    message that is rendered as an error (the offline notice when
    offline, the missing-key notice otherwise). *)
Theorem no_key_submission
        (onLine : bool) (now now' : N) (query : string) (st : App.State) :
  truthy API_KEY = false ->
  let result :=
    handleSendMessage API_KEY generateContent readAsDataURL readAsText
      onLine now now' query st in
  fst result = []
  /\ (snd result = st
      \/ exists notice,
           snd result = App.setChatMessages
                          (fun prev => (prev ++ [notice])%list) st
           /\ MessageItem.isError notice = true
           /\ ChatMessage.isLoading notice = None
           /\ ChatMessage.text notice
              = if onLine then "Error: API Key is not configured."
                else OFFLINE_NOTICE).
Proof.
  intros Hk result. subst result. unfold handleSendMessage.
  destruct (isEmpty (trim query) || App.isLoading st
            || App.isFetchingSuggestions st).
  - split; [reflexivity|now left].
  - destruct onLine; cbn [negb]; [rewrite Hk; cbn [negb]|];
      (split; [reflexivity|]); right; eexists;
      (split; [reflexivity|]); repeat split.
Qed.


End ControllerExtras.

Section SummarizeExtras.

Local Open Scope string_scope.

Variable API_KEY : option string.
Variable generateContent :
  Sdk.Request -> Outcome Sdk.GenerateContentResponse.




End SummarizeExtras.

Section RenderingExtras.

Local Open Scope string_scope.

(** X20.  For a retrieval status that carries the SDK's prefix, the
    badge of a row and the filter behind the "Summarize URLs" button
    agree: the label is the status without the prefix, and the row is
    marked successful exactly when its URL counts as successful.  They
    differ on the bare status OK, which the filter accepts and the badge
    does not mark. *)
Theorem status_badge_agrees_with_filter (url rest : string) :
  let meta := Sdk.mkUrlItem url ("URL_RETRIEVAL_STATUS_" ++ rest) in
  MessageItem.statusText meta = rest
  /\ MessageItem.isSuccess meta = includes rest "SUCCESS"
  /\ MessageItem.isSuccessful meta = MessageItem.isSuccess meta
  /\ MessageItem.isSuccessful (Sdk.mkUrlItem url "OK") = true
  /\ MessageItem.isSuccess (Sdk.mkUrlItem url "OK") = false.
Proof.
  cbv zeta.
  assert (Htext : MessageItem.statusText
                    (Sdk.mkUrlItem url ("URL_RETRIEVAL_STATUS_" ++ rest))
                  = rest) by reflexivity.
  unfold MessageItem.isSuccess. rewrite Htext.
  split; [reflexivity|]. split; [reflexivity|].
  split; [|split; reflexivity].
  unfold MessageItem.isSuccessful.
  cbn [Sdk.urlRetrievalStatus orElse append isEmpty].
  cbn [includes].
  cbn. now rewrite orb_false_r.
Qed.

(** X21.  What a bubble holds.  Bouncing dots stand for a loading
    message; a settled MODEL message is rendered as Markdown; every
    other message is plain text, in red exactly when it is rendered as
    an error.  The colour reserved for a loading model message is never
    used: that branch cannot be reached. *)
Theorem bubble_content_cases (message : ChatMessage.t) :
  match MessageItem.bubbleContent message with
  | MessageItem.LoadingDots =>
      ChatMessage.isLoading message = Some true
  | MessageItem.Markdown content =>
      ChatMessage.sender message = MODEL
      /\ content = ChatMessage.text message
  | MessageItem.PlainText c text =>
      ChatMessage.sender message <> MODEL
      /\ text = ChatMessage.text message
      /\ c <> MessageItem.TextModelLoading
      /\ (c = MessageItem.TextRed200
          <-> MessageItem.isError message = true)
  end.
Proof.
  unfold MessageItem.bubbleContent, MessageItem.renderMessageContent,
    MessageItem.isError, MessageItem.isModel, MessageItem.isUser,
    MessageItem.isSystem, MessageItem.isTrue.
  destruct (ChatMessage.isLoading message) as [[|]|];
    [reflexivity| |];
    destruct (ChatMessage.sender message); cbn [andb negb];
    try (split; [reflexivity|reflexivity]);
    try destruct (startsWith (ChatMessage.text message) "Error:");
    repeat split; try discriminate; try reflexivity.
Qed.

End RenderingExtras.

Section PrefetchExtras.

Local Open Scope string_scope.

Variable API_KEY : option string.
Variable generateContent :
  Sdk.Request -> Outcome Sdk.GenerateContentResponse.
Variable JSON_parse : string -> option JsValue.

(** X22.  The suggestion prefetch never touches the knowledge base, the
    transcript or the loading flag, sends at most one request, and
    leaves at most four suggestions.  When it sent nothing (no URL in
    the active group, or no credential) the suggestions are empty; when
    it sent its request, the request lists the active group's URLs, the
    fetch flag is lowered at the end, and a failure of the service
    leaves the suggestions empty. *)
Theorem prefetch_outcome (st : App.State) :
  let result := suggestionsEffect API_KEY generateContent JSON_parse st in
  let request := suggestionsRequest (App.currentUrlsForChat st) in
  App.urlGroups (snd result) = App.urlGroups st
  /\ App.urlGroupsStamp (snd result) = App.urlGroupsStamp st
  /\ App.activeUrlGroupId (snd result) = App.activeUrlGroupId st
  /\ App.chatMessages (snd result) = App.chatMessages st
  /\ App.isLoading (snd result) = App.isLoading st
  /\ (List.length (App.initialQuerySuggestions (snd result)) <= 4)%nat
  /\ ((fst result = []
       /\ App.initialQuerySuggestions (snd result) = []
       /\ App.isFetchingSuggestions (snd result)
          = App.isFetchingSuggestions st)
      \/ (fst result = [request]
          /\ App.isFetchingSuggestions (snd result) = false
          /\ (forall e, generateContent request = Throw e ->
                App.initialQuerySuggestions (snd result) = []))).
Proof.
  cbv zeta. unfold suggestionsEffect.
  destruct (0 <? List.length (App.currentUrlsForChat st))%nat eqn:Hlen;
    cbn [andb].
  - destruct (truthy API_KEY) eqn:Hk.
    + unfold fetchAndSetInitialSuggestions. rewrite Hk. cbn [negb].
      apply Nat.ltb_lt in Hlen.
      destruct (List.length (App.currentUrlsForChat st) =? 0)%nat eqn:H0;
        [apply Nat.eqb_eq in H0; lia|].
      unfold getInitialSuggestions, getAiInstance. rewrite H0, Hk.
      cbn [negb].
      destruct (generateContent
                  (suggestionsRequest (App.currentUrlsForChat st)))
        as [response|e]; cbn [bindOutcome rethrowFormatted fst snd].
      * unfold App.setIsFetchingSuggestions,
          App.setInitialQuerySuggestions.
        cbn [App.urlGroups App.urlGroupsStamp App.activeUrlGroupId
             App.chatMessages App.isLoading App.isFetchingSuggestions
             App.initialQuerySuggestions].
        repeat (split; [reflexivity|]). split.
        -- rewrite length_firstn. lia.
        -- right. split; [reflexivity|]. split; [reflexivity|].
           intros e He. discriminate.
      * unfold App.setIsFetchingSuggestions,
          App.setInitialQuerySuggestions.
        cbn [App.urlGroups App.urlGroupsStamp App.activeUrlGroupId
             App.chatMessages App.isLoading App.isFetchingSuggestions
             App.initialQuerySuggestions].
        repeat (split; [reflexivity|]). split; [cbn; lia|].
        right. repeat split.
    + cbn [fst snd App.setInitialQuerySuggestions App.urlGroups
           App.urlGroupsStamp App.activeUrlGroupId App.chatMessages
           App.isLoading App.isFetchingSuggestions
           App.initialQuerySuggestions].
      repeat (split; [reflexivity|]). split; [cbn; lia|].
      left. repeat split.
  - cbn [fst snd App.setInitialQuerySuggestions App.urlGroups
         App.urlGroupsStamp App.activeUrlGroupId App.chatMessages
         App.isLoading App.isFetchingSuggestions
         App.initialQuerySuggestions].
    repeat (split; [reflexivity|]). split; [cbn; lia|].
    left. repeat split.
Qed.

End PrefetchExtras.

(* ================================================================== *)
(** * Part VI.  Instances of the further properties                     *)
(* ================================================================== *)

Section FurtherInstances.

Local Open Scope string_scope.

Lemma NoDup_strings (l : list string) :
  nodup string_dec l = l -> NoDup l.
Proof. intros E. rewrite <- E. apply NoDup_nodup. Qed.

(** X2 at the seed store, whose two groups hold pairwise different
    URLs: they still do after a URL was added twice and another one
    removed. *)
Lemma urls_stay_unique_witness :
  Forall uniqueUrls (App.urlGroups App.initial)
  /\ Forall uniqueUrls
       (App.urlGroups
          (run Sample.key
             [(1%N, OnAddUrl "https://example.org/a");
              (2%N, OnAddUrl "https://example.org/a");
              (3%N, OnRemoveUrl "https://ai.google.dev/gemini-api/docs")]
             App.initial)).
Proof.
  assert (H : Forall uniqueUrls (App.urlGroups App.initial)).
  { unfold App.initial, INITIAL_URL_GROUPS. cbn [App.urlGroups].
    repeat (constructor;
            [unfold uniqueUrls; apply NoDup_strings;
             vm_compute; reflexivity|]).
    constructor. }
  split; [exact H|].
  apply (urls_stay_unique Sample.key App.initial H).
Defined.

(** X5 at the full store, which holds notes.txt: after the selection
    todo.md, logo.png the names are still pairwise different. *)
Lemma file_names_stay_unique_witness :
  NoDup (map File.name
           (App.currentFilesForChat
              (KnowledgeBaseManager.fileChange Sample.key 5%N
                 [Sample.todo; Sample.logo] Sample.fullStore))).
Proof.
  assert (Ha : App.activeGroup Sample.fullStore = Some Sample.fullGroup)
    by reflexivity.
  assert (Hl : (List.length (URLGroup.files Sample.fullGroup)
                <= MAX_FILES)%nat) by (simpl; unfold MAX_FILES; lia).
  assert (Hu : uniqueFileNames Sample.fullGroup)
    by (apply NoDup_strings; vm_compute; reflexivity).
  assert (Hn : NoDup (map File.name [Sample.todo; Sample.logo]))
    by (apply NoDup_strings; vm_compute; reflexivity).
  exact (file_names_stay_unique Sample.key 5%N
           [Sample.todo; Sample.logo] Sample.fullStore Sample.fullGroup
           Ha Hl Hu Hn).
Defined.

(** X6 at the seed store, with a new URL typed into the sidebar: it ends
    up behind the nine URLs of the first group. *)
Lemma sidebar_accept_appends_witness :
  App.currentUrlsForChat
    (dispatch Sample.key (1%N, OnAddUrl "https://example.org/new")
       App.initial)
  = (GEMINI_DOCS_URLS ++ ["https://example.org/new"])%list.
Proof.
  assert (Ha : App.activeGroup App.initial
               = Some (URLGroup.mk "gemini-overview"
                         "Gemini Docs Overview" GEMINI_DOCS_URLS []))
    by reflexivity.
  assert (Hs : snd (KnowledgeBaseManager.handleAddUrl Sample2.isValidUrl
                      (KnowledgeBaseManager.propsOf App.initial)
                      (KnowledgeBaseManager.mkState
                         "https://example.org/new" None))
               = Some (OnAddUrl "https://example.org/new"))
    by (vm_compute; reflexivity).
  destruct (sidebar_accept_appends Sample.key Sample2.isValidUrl
              App.initial
              (KnowledgeBaseManager.mkState "https://example.org/new" None)
              (OnAddUrl "https://example.org/new")
              (URLGroup.mk "gemini-overview" "Gemini Docs Overview"
                 GEMINI_DOCS_URLS [])
              Ha Hs) as (_ & _ & _ & _ & Hstore).
  exact (Hstore 1%N).
Defined.

(** X7 at the seed store: after a switch to the second group and a
    removal there, the active id still names a group. *)
Lemma active_group_stays_resolvable_witness :
  exists g,
    App.activeGroup
      (run Sample.key
         [(1%N, OnSetGroupId "model-capabilities");
          (2%N, OnRemoveUrl "https://ai.google.dev/gemini-api/docs/video")]
         App.initial)
    = Some g.
Proof.
  assert (H1 : App.activeGroup App.initial <> None)
    by (vm_compute; discriminate).
  assert (H2 : Forall
                 (knownSwitch (map URLGroup.id (App.urlGroups App.initial)))
                 [(1%N, OnSetGroupId "model-capabilities");
                  (2%N, OnRemoveUrl
                          "https://ai.google.dev/gemini-api/docs/video")]).
  { constructor; [right; left; reflexivity|].
    constructor; [exact I|constructor]. }
  pose proof (active_group_stays_resolvable Sample.key App.initial
                _ H1 H2) as H.
  clear H1 H2.
  destruct (App.activeGroup _) as [g|];
    [exists g; reflexivity|exfalso; apply H; reflexivity].
Defined.

(** X8 with the empty string as credential, which is falsy: the summary
    of one URL sends nothing and fails with the authentication
    message. *)
Lemma missing_key_sends_nothing_witness :
  getSummaryForUrls (Some EmptyString)
    (Sample.answering Sample2.summarized) ["https://a.example"]
  = ([], Throw (ErrorObj MSG_AUTH)).
Proof.
  destruct (missing_key_sends_nothing (Some EmptyString)
              (Sample.answering Sample2.summarized)
              SUMMARY_PROMPT ["https://a.example"] [] eq_refl)
    as (_ & _ & H).
  exact H.
Defined.

(** X9 at the sample answer: one request is sent and the result carries
    the text of the answer. *)
Lemma generate_outcome_witness :
  fst (generateContentWithContext Sample.key
         (Sample.answering Sample2.answered) "where?"
         ["https://example.org/doc"] [])
  = [generateRequest "where?" ["https://example.org/doc"] []]
  /\ exists r,
       snd (generateContentWithContext Sample.key
              (Sample.answering Sample2.answered) "where?"
              ["https://example.org/doc"] [])
       = Return r.
Proof.
  destruct (generate_outcome Sample.key
              (Sample.answering Sample2.answered) "where?"
              ["https://example.org/doc"] [] eq_refl)
    as (Hsent & Hiff & _).
  split; [exact Hsent|].
  apply Hiff. exists Sample2.answered.
  split; [reflexivity|left; reflexivity].
Defined.

(** X10 at a service that answers HTTP 429: the summary fails with the
    quota message. *)
Lemma summarize_outcome_witness :
  snd (getSummaryForUrls Sample.key
         (Sample2.failing "HTTP 429: quota exhausted")
         ["https://a.example"])
  = Throw (ErrorObj MSG_QUOTA).
Proof.
  destruct (summarize_outcome Sample.key
              (Sample2.failing "HTTP 429: quota exhausted")
              ["https://a.example"] eq_refl)
    as (_ & Hthrow & _).
  assert (Hc : classify (ErrorObj "HTTP 429: quota exhausted")
               <> GenericFallback) by (vm_compute; discriminate).
  rewrite (Hthrow (ErrorObj "HTTP 429: quota exhausted") eq_refl Hc).
  vm_compute. reflexivity.
Defined.

(** X11 at a message with a bracketed tag in front. *)
Lemma fallback_strips_bracket_tag_witness :
  formatGeminiError
    (ErrorObj "[GoogleGenerativeAI Error] Something odd happened")
  = "Something odd happened".
Proof.
  assert (Hrest : forall c r,
             "Something odd happened" = String c r ->
             isWhiteSpace c = false).
  { intros c r E. injection E as <- _. reflexivity. }
  exact (fallback_strips_bracket_tag EmptyString
           "GoogleGenerativeAI Error" " " "Something odd happened"
           ltac:(vm_compute; reflexivity) ltac:(vm_compute; reflexivity)
           ltac:(vm_compute; reflexivity) ltac:(vm_compute; reflexivity)
           ltac:(vm_compute; reflexivity) Hrest
           ltac:(vm_compute; reflexivity)).
Defined.

(** X12 at a message with the SDK prefix in front. *)
Lemma fallback_strips_sdk_prefix_witness :
  formatGeminiError (ErrorObj "GoogleGenAIError:  Something odd happened")
  = "Something odd happened".
Proof.
  assert (Hrest : forall c r,
             "Something odd happened" = String c r ->
             isWhiteSpace c = false).
  { intros c r E. injection E as <- _. reflexivity. }
  exact (fallback_strips_sdk_prefix "  " "Something odd happened"
           ltac:(vm_compute; reflexivity) ltac:(vm_compute; reflexivity)
           ltac:(vm_compute; reflexivity) ltac:(vm_compute; reflexivity)
           Hrest).
Defined.


(** X15 at a store with an image and a text file: the one request
    carries the image fragment, the text fragment and the prompt. *)
Lemma submit_request_contents_witness :
  fst (handleSendMessage Sample.key (Sample.answering Sample2.answered)
         Sample.readAsDataURL Sample.readAsText true 7%N 8%N
         "why?" Sample2.mixedStore)
  = [generateRequest "why?" ["https://a.example"] Sample2.mixedParts].
Proof.
  exact (submit_request_contents Sample.key
           (Sample.answering Sample2.answered)
           Sample.readAsDataURL Sample.readAsText 7%N 8%N
           "why?" Sample2.mixedStore Sample2.mixedParts
           eq_refl eq_refl eq_refl eq_refl eq_refl).
Defined.

(** X16 at a store whose only file cannot be read. *)
Lemma file_read_error_skips_gateway_witness :
  fst (handleSendMessage Sample.key (Sample.answering Sample2.answered)
         Sample.readAsDataURL Sample.readAsText true 7%N 8%N
         "why?" Sample2.brokenStore)
  = []
  /\ App.chatMessages
       (snd (handleSendMessage Sample.key
               (Sample.answering Sample2.answered)
               Sample.readAsDataURL Sample.readAsText true 7%N 8%N
               "why?" Sample2.brokenStore))
     = [ChatMessage.mk "user-7" "why?" USER 7%N None None None None;
        ChatMessage.mk "model-response-8"
          "Error: An unexpected error occurred." SYSTEM 8%N (Some false)
          None None None].
Proof.
  exact (file_read_error_skips_gateway Sample.key
           (Sample.answering Sample2.answered)
           Sample.readAsDataURL Sample.readAsText 7%N 8%N
           "why?" Sample2.brokenStore Sample2.brokenFile NonError
           eq_refl eq_refl eq_refl eq_refl (or_introl eq_refl) eq_refl).
Defined.

(** X17 online, without a credential, in the seed store. *)
Lemma no_key_submission_witness :
  fst (handleSendMessage None (Sample.answering Sample2.answered)
         Sample.readAsDataURL Sample.readAsText true 7%N 8%N
         "where?" App.initial)
  = [].
Proof.
  pose proof (no_key_submission None (Sample.answering Sample2.answered)
                Sample.readAsDataURL Sample.readAsText true 7%N 8%N
                "where?" App.initial eq_refl) as H.
  cbv zeta in H. exact (proj1 H).
Defined.



End FurtherInstances.
